(** * The wind-data pipeline of [main.js]

    [main.js] fetches a two-component wind grid over HTTP
    ([fetchWindData], with a bounded retry), checks it, tags the two
    headers and hands the result to the velocity layer ([loadWindData]).

    The embedding follows the script statement by statement:
    - JavaScript values are primitives or references into a store of
      objects, so that "the same array" and "a fresh object" differ;
    - numbers are IEEE 754 binary64 values ([spec_float] at precision 53);
    - a computation is a function from the world (store, network, log)
      to an outcome, which is a value or a thrown error, and a new world;
      every operation of the language that can throw (reading a property
      of [null], iterating, calling a method, converting an operand of
      [*]) is written with its throwing cases;
    - [console], [alert], [fetch], [setTimeout] and the velocity layer are
      recorded as events in the order in which the script performs them.

    The creation of the map and of its tile layer at the head of the
    script does not touch the pipeline and is left out. *)

From Stdlib Require Import ZArith SpecFloat.
From stdpp Require Import gmap strings list pretty.
From Equations Require Import Equations.

(** ** Numbers *)

Definition number : Type := spec_float.

Definition prec : Z := 53.
Definition emax : Z := 1024.

Definition num_of_Z (z : Z) : number := binary_normalize prec emax z 0 false.
Definition num_of_nat (n : nat) : number := num_of_Z (Z.of_nat n).
Definition num_mul (x y : number) : number := SFmul prec emax x y.

(** ** Values and the object store *)

Definition loc : Type := nat.

Inductive value : Type :=
  | VUndef
  | VNull
  | VBool (b : bool)
  | VNum (x : number)
  | VStr (s : string)
  | VRef (l : loc).

(** An object of the store: an array with its elements, or a plain object
    with its own properties. *)
Inductive obj : Type :=
  | OArr (elems : list value)
  | OObj (props : gmap string value).

(** A location is an index into the store; objects are only ever added at
    the end, so a location keeps its object for ever. *)
Definition heap : Type := list obj.

Definition alloc (o : obj) (h : heap) : loc * heap := (length h, h ++ [o]).

(** The property names that the script reads or writes. None of them is an
    array index, and none of them except [length] is a member of a built-in
    prototype. *)
Inductive name : Type :=
  | Nheader | Ndata | Nlength | Nnx | Nny | NparameterNumber.

Definition key (n : name) : string :=
  match n with
  | Nheader => "header"
  | Ndata => "data"
  | Nlength => "length"
  | Nnx => "nx"
  | Nny => "ny"
  | NparameterNumber => "parameterNumber"
  end.

(** ** JSON documents and [response.json()] *)

#[warnings="-register-all"]
Inductive json : Type :=
  | JNull
  | JBool (b : bool)
  | JNumber (x : number)
  | JString (s : string)
  | JArray (xs : list json)
  | JObject (members : list (string * json)).

(** Parsing a document builds its arrays and objects in the store, the
    parts before the whole. When an object repeats a key, the later member
    wins. *)
Section Parts.

Variable reify : json → heap → value * heap.

Fixpoint elements (xs : list json) (h : heap) : list value * heap :=
  match xs with
  | [] => ([], h)
  | x :: xs' =>
      let '(v, h1) := reify x h in
      let '(vs, h2) := elements xs' h1 in
      (v :: vs, h2)
  end.

Fixpoint members (ms : list (string * json)) (m : gmap string value)
    (h : heap) : gmap string value * heap :=
  match ms with
  | [] => (m, h)
  | (k, x) :: ms' =>
      let '(v, h1) := reify x h in
      members ms' (<[k := v]> m) h1
  end.

End Parts.

Fixpoint reify (j : json) (h : heap) {struct j} : value * heap :=
  match j with
  | JNull => (VNull, h)
  | JBool b => (VBool b, h)
  | JNumber x => (VNum x, h)
  | JString s => (VStr s, h)
  | JArray xs =>
      let '(vs, h1) := elements reify xs h in
      (VRef (length h1), h1 ++ [OArr vs])
  | JObject ms =>
      let '(m, h1) := members reify ms ∅ h in
      (VRef (length h1), h1 ++ [OObj m])
  end.

(** ** The network *)

Inductive error : Type :=
  | NetworkError
  | HttpError (status : Z)
  | SyntaxError
  | TypeError.

(** What one call of [fetch] meets: the request fails, or a response arrives
    with a status and a body, which is a JSON document or is not. *)
Record response : Type := Response { status : Z; body : option json }.

Inductive fetch_result : Type :=
  | Rejected
  | Resolved (r : response).

Definition ok (r : response) : bool :=
  (200 <=? status r)%Z && (status r <=? 299)%Z.

(** ** Events *)

Inductive level : Type := Log | Warn | Error.

Inductive message : Type :=
  | MsgFetching (attempt : nat) (url : string)
  | MsgApiResponse (data : value)
  | MsgUnexpectedFormat
  | MsgAttemptFailed (attempt : nat) (e : error)
  | MsgRetrying (next maxAttempts : nat)
  | MsgMaxRetries (e : error)
  | MsgUHeader (v : value)
  | MsgVHeader (v : value)
  | MsgULength (v : value)
  | MsgVLength (v : value)
  | MsgLengthMismatch (uDataLength vDataLength expected : value)
  | MsgNoWindData
  | MsgLoaded.

Inductive event : Type :=
  | Console (l : level) (m : message)
  | Alert (text : string)
  | Fetch (url : string)
  | SetTimeout (ms : nat)
  | VelocityLayer (data : value)
  | AddTo.

(** ** Worlds and computations *)

(** [net w i] is what the [i]-th call of [fetch] meets; [fetched w] counts
    the calls made so far. *)
Record world : Type := World {
  heap_of : heap;
  net : nat → fetch_result;
  fetched : nat;
  trace : list event
}.

Inductive outcome (A : Type) : Type :=
  | Normal (a : A)
  | Throw (e : error).
Arguments Normal {A} a.
Arguments Throw {A} e.

Definition M (A : Type) : Type := world → outcome A * world.

Definition ret {A} (a : A) : M A := λ w, (Normal a, w).

Definition throw {A} (e : error) : M A := λ w, (Throw e, w).

Definition bind {A B} (c : M A) (k : A → M B) : M B :=
  λ w, match c w with
       | (Normal a, w1) => k a w1
       | (Throw e, w1) => (Throw e, w1)
       end.

Definition try_catch {A} (c : M A) (handler : error → M A) : M A :=
  λ w, match c w with
       | (Normal a, w1) => (Normal a, w1)
       | (Throw e, w1) => handler e w1
       end.

Notation "x <- c1 ;; c2" := (bind c1 (λ x, c2))
  (at level 100, c1 at next level, right associativity).
Notation "c1 ;; c2" := (bind c1 (λ _, c2))
  (at level 100, right associativity).

Definition emit (e : event) : M unit :=
  λ w, (Normal tt,
        {| heap_of := heap_of w; net := net w; fetched := fetched w;
           trace := trace w ++ [e] |}).

Definition get_heap : M heap := λ w, (Normal (heap_of w), w).

Definition set_heap (h : heap) : M unit :=
  λ w, (Normal tt,
        {| heap_of := h; net := net w; fetched := fetched w;
           trace := trace w |}).

Definition new (o : obj) : M value :=
  h <- get_heap ;;
  let '(l, h1) := alloc o h in
  set_heap h1 ;;
  ret (VRef l).

Definition console (l : level) (m : message) : M unit := emit (Console l m).
Definition alert (text : string) : M unit := emit (Alert text).
Definition sleep (ms : nat) : M unit := emit (SetTimeout ms).

(** [fetch] consumes the next entry of the network; a failed request is a
    thrown error. *)
Definition fetch (url : string) : M response :=
  λ w, let w1 := {| heap_of := heap_of w; net := net w;
                    fetched := S (fetched w);
                    trace := trace w ++ [Fetch url] |} in
       match net w (fetched w) with
       | Rejected => (Throw NetworkError, w1)
       | Resolved r => (Normal r, w1)
       end.

Definition response_json (r : response) : M value :=
  match body r with
  | None => throw SyntaxError
  | Some j =>
      h <- get_heap ;;
      let '(v, h1) := reify j h in
      set_heap h1 ;;
      ret v
  end.

(** ** The operations of the language that the script uses *)

(** Truthiness, as tested by [!] and [if]. *)
Definition ToBoolean (v : value) : bool :=
  match v with
  | VUndef | VNull => false
  | VBool b => b
  | VNum (S754_zero _) | VNum S754_nan => false
  | VNum _ => true
  | VStr s => negb (String.eqb s "")
  | VRef _ => true
  end.

(** [a === b]. *)
Definition strict_eq (a b : value) : bool :=
  match a, b with
  | VUndef, VUndef | VNull, VNull => true
  | VBool x, VBool y => Bool.eqb x y
  | VNum x, VNum y => SFeqb x y
  | VStr x, VStr y => String.eqb x y
  | VRef x, VRef y => Nat.eqb x y
  | _, _ => false
  end.

(** [a !== b]. *)
Definition strict_neq (a b : value) : bool := negb (strict_eq a b).

(** [Array.isArray(v)]. *)
Definition is_array (h : heap) (v : value) : bool :=
  match v with
  | VRef l => match h !! l with Some (OArr _) => true | _ => false end
  | _ => false
  end.

(** A string holds the bytes of its UTF-8 form, as the file of the script
    and a JSON body do; a surrogate that has no partner, which only an
    escape sequence produces, holds the three bytes that the same scheme
    gives to its number. The language measures and indexes a string by
    UTF-16 code units and iterates over it by code points. *)

(** The number of bytes of the code point that the byte [c] begins; a byte
    that begins none counts for itself. *)
Definition lead_width (c : Ascii.ascii) : nat :=
  let n := Ascii.N_of_ascii c in
  if (n <? 192)%N then 1
  else if (n <? 224)%N then 2
  else if (n <? 240)%N then 3
  else if (n <? 248)%N then 4
  else 1.

(** The bytes [cs] cut into code points; [n] bounds their number. *)
Fixpoint cut_points (n : nat) (cs : list Ascii.ascii)
  : list (list Ascii.ascii) :=
  match n, cs with
  | S n', c :: _ =>
      take (lead_width c) cs :: cut_points n' (drop (lead_width c) cs)
  | _, _ => []
  end.

(** The code points of a string, each as a string. *)
Definition code_points (s : string) : list string :=
  let cs := String.list_ascii_of_string s in
  String.string_of_list_ascii <$> cut_points (length cs) cs.

(** The three bytes of the code unit [u]. *)
Definition three_bytes (u : N) : string :=
  String.string_of_list_ascii
    [Ascii.ascii_of_N (224 + u / 4096);
     Ascii.ascii_of_N (128 + (u / 64) mod 64);
     Ascii.ascii_of_N (128 + u mod 64)]%N.

(** The code units of one code point: a code point of four bytes, which
    lies beyond [0xFFFF], gives its two surrogates; any other is one code
    unit. *)
Definition surrogates (p : string) : list string :=
  match String.list_ascii_of_string p with
  | [b0; b1; b2; b3] =>
      let c := ((Ascii.N_of_ascii b0 mod 8) * 262144 +
                (Ascii.N_of_ascii b1 mod 64) * 4096 +
                (Ascii.N_of_ascii b2 mod 64) * 64 +
                Ascii.N_of_ascii b3 mod 64)%N in
      [three_bytes (55296 + (c - 65536) / 1024);
       three_bytes (56320 + (c - 65536) mod 1024)]%N
  | _ => [p]
  end.

(** The code units of a string, each as a string. *)
Definition code_units (s : string) : list string :=
  code_points s ≫= surrogates.

(** [v.n] for one of the names of the script. Reading a property of
    [undefined] or [null] throws; a primitive has none of these properties,
    except that a string has a length; an array has its length and a plain
    object has its own properties. A location outside the store stands for
    an object without properties. *)
Definition get (h : heap) (v : value) (n : name) : outcome value :=
  match v with
  | VUndef | VNull => Throw TypeError
  | VBool _ | VNum _ => Normal VUndef
  | VStr s =>
      Normal match n with
             | Nlength => VNum (num_of_nat (length (code_units s)))
             | _ => VUndef
             end
  | VRef l =>
      Normal match h !! l with
             | Some (OObj m) => default VUndef (m !! key n)
             | Some (OArr vs) =>
                 match n with
                 | Nlength => VNum (num_of_nat (length vs))
                 | _ => VUndef
                 end
             | None => VUndef
             end
  end.

(** The [i]-th of the pieces [cs] of a string as a string, if there is
    one. *)
Definition char_at (cs : list string) (i : nat) : value :=
  match cs !! i with
  | Some c => VStr c
  | None => VUndef
  end.

(** [v[i]] for an index [i]. *)
Definition get_index (h : heap) (v : value) (i : nat) : outcome value :=
  match v with
  | VUndef | VNull => Throw TypeError
  | VBool _ | VNum _ => Normal VUndef
  | VStr s => Normal (char_at (code_units s) i)
  | VRef l =>
      Normal match h !! l with
             | Some (OArr vs) => default VUndef (vs !! i)
             | Some (OObj m) => default VUndef (m !! pretty i)
             | None => VUndef
             end
  end.

(** [const [a, b] = v]: the first two items that iterating [v] gives.
    Only arrays and strings can be iterated; a string gives its code
    points. *)
Definition first_two (h : heap) (v : value) : outcome (value * value) :=
  match v with
  | VStr s =>
      Normal (char_at (code_points s) 0, char_at (code_points s) 1)
  | VRef l =>
      match h !! l with
      | Some (OArr vs) =>
          Normal (default VUndef (vs !! 0), default VUndef (vs !! 1))
      | _ => Throw TypeError
      end
  | _ => Throw TypeError
  end.

(** [v.some(p)]; only an array has the method. *)
Definition array_some (h : heap) (v : value) (p : value → bool)
  : outcome bool :=
  match v with
  | VRef l =>
      match h !! l with
      | Some (OArr vs) => Normal (existsb p vs)
      | _ => Throw TypeError
      end
  | _ => Throw TypeError
  end.

(** The own enumerable properties of a value, as [{...v}] copies them:
    the properties of a plain object, the elements of an array and the
    code units of a string under their indices, and nothing of any other
    primitive. *)
Definition own_properties (h : heap) (v : value) : gmap string value :=
  match v with
  | VStr s => list_to_map (imap (λ i c, (pretty i, VStr c)) (code_units s))
  | VRef l =>
      match h !! l with
      | Some (OObj m) => m
      | Some (OArr vs) => list_to_map (imap (λ i x, (pretty i, x)) vs)
      | None => ∅
      end
  | _ => ∅
  end.

(** Reading the store inside a computation. *)
Definition read {A} (f : heap → outcome A) : M A :=
  λ w, (f (heap_of w), w).

Definition isArray (v : value) : M bool :=
  read (λ h, Normal (is_array h v)).
Definition get_field (v : value) (n : name) : M value :=
  read (λ h, get h v n).
Definition get_elem (v : value) (i : nat) : M value :=
  read (λ h, get_index h v i).

(** [c1 || c2] on conditions: [c2] is evaluated only if [c1] is false. *)
Definition or_else (c1 c2 : M bool) : M bool :=
  b <- c1 ;; if b then ret true else c2.

(** [!c]. *)
Definition negated (c : M value) : M bool :=
  v <- c ;; ret (negb (ToBoolean v)).

(** ** [fetchWindData] *)

Definition url : string := "http://127.0.0.1:5000/api/wind".

Definition alert_invalid_format : string :=
  "Error: Invalid API response format. Please check the server logs.".

Definition alert_fetch_failed : string :=
  "Error: Failed to fetch wind data after multiple attempts. Please check the server connection and ensure it’s running on http://192.168.18.6:5000.".

Definition two : value := VNum (num_of_Z 2).

(** The condition of the format check:
    [!Array.isArray(data) || data.length !== 2 || !data[0].header ||
     !data[1].header || !Array.isArray(data[0].data) ||
     !Array.isArray(data[1].data)]. *)
Definition invalid_format (data : value) : M bool :=
  or_else (b <- isArray data ;; ret (negb b))
  (or_else (n <- get_field data Nlength ;; ret (strict_neq n two))
  (or_else (negated (d0 <- get_elem data 0 ;; get_field d0 Nheader))
  (or_else (negated (d1 <- get_elem data 1 ;; get_field d1 Nheader))
  (or_else (d0 <- get_elem data 0 ;; x <- get_field d0 Ndata ;;
            b <- isArray x ;; ret (negb b))
           (d1 <- get_elem data 1 ;; x <- get_field d1 Ndata ;;
            b <- isArray x ;; ret (negb b)))))).

(** The [try] block of [fetchWindData]. *)
Definition attempt_body : M value :=
  response <- fetch url ;;
  if negb (ok response) then throw (HttpError (status response))
  else
    data <- response_json response ;;
    console Log (MsgApiResponse data) ;;
    bad <- invalid_format data ;;
    if bad then
      console Error MsgUnexpectedFormat ;;
      alert alert_invalid_format ;;
      ret VNull
    else ret data.

Equations? fetchWindData (attempt maxAttempts : nat) : M value
  by wf (maxAttempts - attempt) lt :=
fetchWindData attempt maxAttempts :=
  console Log (MsgFetching attempt url) ;;
  try_catch attempt_body
    (λ error,
       console Error (MsgAttemptFailed attempt error) ;;
       match lt_dec attempt maxAttempts with
       | left _ =>
           console Log (MsgRetrying (attempt + 1) maxAttempts) ;;
           sleep 2000 ;;
           fetchWindData (attempt + 1) maxAttempts
       | right _ =>
           console Error (MsgMaxRetries error) ;;
           alert alert_fetch_failed ;;
           ret VNull
       end).
Proof. lia. Qed.

(** ** [loadWindData] *)

Definition alert_length_mismatch : string :=
  "Error: Wind data length mismatch. Please check the server configuration.".

Definition alert_no_data : string :=
  "Warning: No meaningful wind data available.".

Definition zero : value := VNum (S754_zero false).

(** The test of [some]: [speed => speed !== 0]. *)
Definition nonzero (speed : value) : bool := strict_neq speed zero.

(** [{ ...header, parameterNumber: n }]: a new object with the own
    properties of [header] and [parameterNumber] set to [n]. *)
Definition tag_header (header : value) (n : Z) : M value :=
  h <- get_heap ;;
  new (OObj (<[key NparameterNumber := VNum (num_of_Z n)]>
               (own_properties h header))).

(** [{ header: header, data: data }]. *)
Definition component_literal (header data : value) : M value :=
  new (OObj (<[key Ndata := data]> (<[key Nheader := header]> ∅))).

(** The array literal bound to [windData]. *)
Definition windData_literal (uHeader uData vHeader vData : value) : M value :=
  uTagged <- tag_header uHeader 2 ;;
  u <- component_literal uTagged uData ;;
  vTagged <- tag_header vHeader 3 ;;
  v <- component_literal vTagged vData ;;
  new (OArr [u; v]).

Section Presenter.

(** Two conversions of the language are left to the host: the number that
    a string denotes, and the string that an array converts to, if it
    converts at all. *)
Variable StringToNumber : string → number.
Variable ArrayToString : heap → loc → outcome string.

(** The primitive that an object converts to where a number is wanted.
    The objects here come from parsing JSON or from the literals of the
    script, so none of their own properties is callable. [valueOf],
    inherited or not, then never gives a primitive, and the conversion
    falls to [toString]: a plain object with an own [toString] property
    cannot be converted, and any other plain object gives the string of
    [Object.prototype.toString]. *)
Definition ToPrimitive (h : heap) (l : loc) : outcome string :=
  match h !! l with
  | Some (OObj m) =>
      match m !! "toString" with
      | Some _ => Throw TypeError
      | None => Normal "[object Object]"
      end
  | Some (OArr _) => ArrayToString h l
  | None => Normal "[object Object]"
  end.

(** The number that [*] makes of an operand. *)
Definition ToNumber (h : heap) (v : value) : outcome number :=
  match v with
  | VUndef => Normal S754_nan
  | VNull => Normal (S754_zero false)
  | VBool true => Normal (num_of_Z 1)
  | VBool false => Normal (S754_zero false)
  | VNum x => Normal x
  | VStr s => Normal (StringToNumber s)
  | VRef l =>
      match ToPrimitive h l with
      | Normal s => Normal (StringToNumber s)
      | Throw e => Throw e
      end
  end.

(** [a * b]: both operands are converted, the left one first. *)
Definition times (h : heap) (a b : value) : outcome value :=
  match ToNumber h a with
  | Normal x =>
      match ToNumber h b with
      | Normal y => Normal (VNum (num_mul x y))
      | Throw e => Throw e
      end
  | Throw e => Throw e
  end.

Definition multiply (a b : value) : M value := read (λ h, times h a b).

Definition some_nonzero (v : value) : M bool :=
  read (λ h, array_some h v nonzero).

(** The call of [L.velocityLayer] passes [windData] with display options
    that are literals of the script; then the layer is added to the map. *)
Definition loadWindData : M unit :=
  data <- fetchWindData 1 3 ;;
  if negb (ToBoolean data) then ret tt
  else
    components <- read (λ h, first_two h data) ;;
    let '(uComponent, vComponent) := components in
    uHeader <- get_field uComponent Nheader ;;
    uData <- get_field uComponent Ndata ;;
    vHeader <- get_field vComponent Nheader ;;
    vData <- get_field vComponent Ndata ;;
    console Log (MsgUHeader uHeader) ;;
    console Log (MsgVHeader vHeader) ;;
    uLength <- get_field uData Nlength ;;
    console Log (MsgULength uLength) ;;
    vLength <- get_field vData Nlength ;;
    console Log (MsgVLength vLength) ;;
    nx <- get_field uHeader Nnx ;;
    ny <- get_field uHeader Nny ;;
    mismatch <-
      or_else (n <- get_field uData Nlength ;; e <- multiply nx ny ;;
               ret (strict_neq n e))
              (n <- get_field vData Nlength ;; e <- multiply nx ny ;;
               ret (strict_neq n e)) ;;
    if mismatch then
      uDataLength <- get_field uData Nlength ;;
      vDataLength <- get_field vData Nlength ;;
      expected <- multiply nx ny ;;
      console Error (MsgLengthMismatch uDataLength vDataLength expected) ;;
      alert alert_length_mismatch ;;
      ret tt
    else
      hasWindData <- or_else (some_nonzero uData) (some_nonzero vData) ;;
      if negb hasWindData then
        console Warn MsgNoWindData ;;
        alert alert_no_data ;;
        ret tt
      else
        windData <- windData_literal uHeader uData vHeader vData ;;
        emit (VelocityLayer windData) ;;
        emit AddTo ;;
        console Log MsgLoaded.

End Presenter.

(** * Specification *)

(** ** The shape of a wind payload *)

(** The parts of a payload: for the U and for the V component, the header,
    the location of the data array and its samples. *)
Record payload : Type := Payload {
  uHeader : value; uLoc : loc; uData : list value;
  vHeader : value; vLoc : loc; vData : list value
}.

(** [c] is an object with a truthy [header] field and a [data] field that is
    the array of [samples] at [ldata]. *)
Definition component (h : heap) (c header : value) (ldata : loc)
    (samples : list value) : Prop :=
  ∃ l m, c = VRef l ∧ h !! l = Some (OObj m) ∧
         m !! "header" = Some header ∧ ToBoolean header = true ∧
         m !! "data" = Some (VRef ldata) ∧ h !! ldata = Some (OArr samples).

(** [data] is an array of exactly two such components. *)
Definition wind_payload (h : heap) (data : value) (p : payload) : Prop :=
  ∃ l cu cv, data = VRef l ∧ h !! l = Some (OArr [cu; cv]) ∧
             component h cu (uHeader p) (uLoc p) (uData p) ∧
             component h cv (vHeader p) (vLoc p) (vData p).

(** ** The same shape, on the JSON document *)

(** The value of the key [k] in an object with the members [ms]: the last
    member with that key. *)
Fixpoint member (k : string) (ms : list (string * json)) : option json :=
  match ms with
  | [] => None
  | (k', x) :: ms' =>
      match member k ms' with
      | Some y => Some y
      | None => if String.eqb k k' then Some x else None
      end
  end.

(** Truthiness of the value that a document parses to. *)
Definition json_truthy (j : json) : bool :=
  match j with
  | JNull => false
  | JBool b => b
  | JNumber (S754_zero _) | JNumber S754_nan => false
  | JNumber _ => true
  | JString s => negb (String.eqb s "")
  | JArray _ | JObject _ => true
  end.

(** An object with a truthy [header] and a [data] that is an array. *)
Definition json_component (c : json) : Prop :=
  ∃ ms header xs, c = JObject ms ∧
                  member "header" ms = Some header ∧
                  json_truthy header = true ∧
                  member "data" ms = Some (JArray xs).

(** An array of exactly two such objects. *)
Definition json_wind_payload (j : json) : Prop :=
  ∃ cu cv, j = JArray [cu; cv] ∧ json_component cu ∧ json_component cv.

(** The next response has a status from 200 to 299 and the JSON body [j]. *)
Definition serves (w : world) (j : json) : Prop :=
  ∃ st, net w (fetched w) = Resolved (Response st (Some j)) ∧
        (200 ≤ st ≤ 299)%Z.

(** The next request meets a failure: no response, or a status outside
    200 to 299. *)
Definition fails (r : fetch_result) : Prop :=
  match r with
  | Rejected => True
  | Resolved r => ¬ (200 ≤ status r ≤ 299)%Z
  end.

(** The world after the script has logged [evs]. *)
Definition logged (w : world) (evs : list event) : world :=
  {| heap_of := heap_of w; net := net w; fetched := fetched w;
     trace := trace w ++ evs |}.

(** The world after one more request, with the store [h]. *)
Definition answered (w : world) (h : heap) : world :=
  {| heap_of := h; net := net w; fetched := S (fetched w);
     trace := trace w |}.

(** Computations that only read the store leave the world as it is. *)
Definition reads_only {A} (c : M A) : Prop := ∀ w, (c w).2 = w.

(** ** The events of a run in which every request fails *)

(** The error that a failing request throws in the [try] block. *)
Definition failure (r : fetch_result) : error :=
  match r with
  | Rejected => NetworkError
  | Resolved r => HttpError (status r)
  end.

(** A failed attempt that is followed by a retry. *)
Definition retry_events (attempt maxAttempts : nat) (e : error)
  : list event :=
  [Console Log (MsgFetching attempt url); Fetch url;
   Console Error (MsgAttemptFailed attempt e);
   Console Log (MsgRetrying (attempt + 1) maxAttempts); SetTimeout 2000].

(** The failed attempt after which the script stops. *)
Definition final_events (attempt : nat) (e : error) : list event :=
  [Console Log (MsgFetching attempt url); Fetch url;
   Console Error (MsgAttemptFailed attempt e);
   Console Error (MsgMaxRetries e); Alert alert_fetch_failed].

(** [n] failed attempts with a retry, then the last one; [err i] is the
    error of the [i]-th of them. *)
Fixpoint exhausted (n attempt maxAttempts : nat) (err : nat → error)
  : list event :=
  match n with
  | 0 => final_events attempt (err 0)
  | S n' =>
      retry_events attempt maxAttempts (err 0) ++
      exhausted n' (attempt + 1) maxAttempts (λ i, err (S i))
  end.

Definition is_fetch (e : event) : bool :=
  match e with Fetch _ => true | _ => false end.
Definition is_timeout (e : event) : bool :=
  match e with SetTimeout _ => true | _ => false end.
Definition is_alert (e : event) : bool :=
  match e with Alert _ => true | _ => false end.
Definition is_render (e : event) : bool :=
  match e with VelocityLayer _ => true | _ => false end.

(** ** What the presenter sees of an accepted payload *)

(** The value of the property [n] of [v], for a [v] that has properties. *)
Definition field (h : heap) (v : value) (n : name) : value :=
  match get h v n with
  | Normal x => x
  | Throw _ => VUndef
  end.

(** The length of an array of [samples], as a value. *)
Definition length_of (samples : list value) : value :=
  VNum (num_of_nat (length samples)).

(** A sample is zero: the number [0] or [-0]. *)
Definition is_zero (v : value) : Prop := ∃ s, v = VNum (S754_zero s).

(** The four lines that [loadWindData] logs before its checks. *)
Definition inspected (p : payload) : list event :=
  [Console Log (MsgUHeader (uHeader p));
   Console Log (MsgVHeader (vHeader p));
   Console Log (MsgULength (length_of (uData p)));
   Console Log (MsgVLength (length_of (vData p)))].

(** The header that tagging builds from [header]. *)
Definition tagged (h : heap) (header : value) (n : Z) : obj :=
  OObj (<["parameterNumber" := VNum (num_of_Z n)]> (own_properties h header)).

(** A component object with the given fields. *)
Definition component_obj (header data : value) : obj :=
  OObj (<["data" := data]> (<["header" := header]> ∅)).

(** The five objects that the literal of [windData] adds to the store [h]:
    the tagged U header, the U component, the tagged V header, the V
    component and the array of the two components. *)
Definition windData_objects (h : heap) (uHeader uData vHeader vData : value)
  : list obj :=
  let o1 := tagged h uHeader 2 in
  let o2 := component_obj (VRef (length h)) uData in
  let o3 := tagged (h ++ [o1; o2]) vHeader 3 in
  let o4 := component_obj (VRef (length h + 2)) vData in
  [o1; o2; o3; o4; OArr [VRef (length h + 1); VRef (length h + 3)]].

(** A value of the store [h]: a primitive, or a reference to one of its
    objects. *)
Definition in_store (h : heap) (v : value) : Prop :=
  match v with
  | VRef l => is_Some (h !! l)
  | _ => True
  end.

(** The field [k] of the header [v] in the store [h] is [x]: a property of
    a plain object, or an element of an array or a code unit of a string
    under its index. A header that is another primitive has no field. *)
Definition has_field (h : heap) (v : value) (k : string) (x : value)
  : Prop :=
  match v with
  | VRef l =>
      match h !! l with
      | Some (OObj m) => m !! k = Some x
      | Some (OArr vs) => ∃ i : nat, k = pretty i ∧ vs !! i = Some x
      | None => False
      end
  | VStr s =>
      ∃ (i : nat) c, k = pretty i ∧ code_units s !! i = Some c ∧ x = VStr c
  | _ => False
  end.

Section PresenterSpec.

Variable StringToNumber : string → number.
Variable ArrayToString : heap → loc → outcome string.

(** [nx * ny] for the [nx] and [ny] of the U header: its value, or the
    error of a failed conversion. *)
Definition expected (h : heap) (p : payload) : outcome value :=
  times StringToNumber ArrayToString h
    (field h (uHeader p) Nnx) (field h (uHeader p) Nny).

(** The condition of the length check, for the product [e]. *)
Definition mismatch (p : payload) (e : value) : bool :=
  strict_neq (length_of (uData p)) e || strict_neq (length_of (vData p)) e.

(** No sample of either array differs from zero. *)
Definition degenerate (p : payload) : bool :=
  negb (existsb nonzero (uData p) || existsb nonzero (vData p)).

(** The result of [loadWindData] after the payload has arrived. *)
Definition presenter_outcome (h : heap) (p : payload) : outcome unit :=
  match expected h p with
  | Normal _ => Normal tt
  | Throw e => Throw e
  end.

(** The events of [loadWindData] after the payload has arrived in the
    store [h]. *)
Definition presenter_events (h : heap) (p : payload) : list event :=
  inspected p ++
  match expected h p with
  | Throw _ => []
  | Normal e =>
      if mismatch p e then
        [Console Error (MsgLengthMismatch (length_of (uData p))
                          (length_of (vData p)) e);
         Alert alert_length_mismatch]
      else if degenerate p then
        [Console Warn MsgNoWindData; Alert alert_no_data]
      else
        [VelocityLayer (VRef (length h + 4)); AddTo; Console Log MsgLoaded]
  end.

(** The store of [loadWindData] after the payload has arrived in the
    store [h]. *)
Definition presenter_store (h : heap) (p : payload) : heap :=
  match expected h p with
  | Throw _ => h
  | Normal e =>
      if mismatch p e || degenerate p then h
      else h ++ windData_objects h (uHeader p) (VRef (uLoc p))
                  (vHeader p) (VRef (vLoc p))
  end.

End PresenterSpec.

(** ** How failures are surfaced *)

(** Among [evs] there is an error or a warning on the console, and there is
    an alert. *)
Definition reported (evs : list event) : Prop :=
  (∃ m, Console Error m ∈ evs ∨ Console Warn m ∈ evs) ∧
  (∃ text, Alert text ∈ evs).

(** ** Arrival of a payload *)

(** The next response is a success whose JSON body parses, giving the store
    [h1], to the wind payload [data] with the parts [p]. *)
Definition delivered (w : world) (data : value) (h1 : heap) (p : payload)
  : Prop :=
  ∃ j, serves w j ∧ reify j (heap_of w) = (data, h1) ∧ wind_payload h1 data p.

(** The events of a first attempt that succeeds with [data]. *)
Definition arrival (attempt : nat) (data : value) : list event :=
  [Console Log (MsgFetching attempt url); Fetch url;
   Console Log (MsgApiResponse data)].

(** The events of the length-mismatch branch. *)
Definition mismatch_events (uLength vLength expected : value) : list event :=
  [Console Error (MsgLengthMismatch uLength vLength expected);
   Alert alert_length_mismatch].

(** The events of the branch for data without wind. *)
Definition no_data_events : list event :=
  [Console Warn MsgNoWindData; Alert alert_no_data].

(** The events of the rendering of [windData]. *)
Definition render_events (windData : value) : list event :=
  [VelocityLayer windData; AddTo; Console Log MsgLoaded].

(** ** Example inputs *)

Definition JInt (z : Z) : json := JNumber (num_of_Z z).

(** A component with a header of [nx] and [ny] and the given samples. *)
Definition grid (nx ny : Z) (samples : list Z) : json :=
  JObject [("header", JObject [("nx", JInt nx); ("ny", JInt ny)]);
           ("data", JArray (map JInt samples))].

(** The payload of the end-to-end scenario. *)
Definition example_body : json :=
  JArray [grid 2 2 [1; 0; -1; 2]; grid 2 2 [0; 1; 1; -2]]%Z.

(** A world with an empty store in which the first request meets [r1] and
    every later one meets [r2]. *)
Definition serving_then (r1 r2 : fetch_result) : world :=
  {| heap_of := []; net := λ i, match i with 0 => r1 | S _ => r2 end;
     fetched := 0; trace := [] |}.

(** A world with an empty store in which every request meets [r]. *)
Definition serving (r : fetch_result) : world :=
  {| heap_of := []; net := λ _, r; fetched := 0; trace := [] |}.

Definition success (j : json) : fetch_result :=
  Resolved (Response 200 (Some j)).

Definition samples (zs : list Z) : list value :=
  map (λ z, VNum (num_of_Z z)) zs.

(** The store and the parts of the example payload after parsing. *)
Definition example_store : heap := (reify example_body []).2.

Definition example_payload : payload :=
  {| uHeader := VRef 0; uLoc := 1; uData := samples [1; 0; -1; 2]%Z;
     vHeader := VRef 3; vLoc := 4; vData := samples [0; 1; 1; -2]%Z |}.

(** Conversions for the examples, in which no string or array is
    multiplied. *)
Definition example_StringToNumber : string → number := λ _, S754_nan.
Definition example_ArrayToString : heap → loc → outcome string :=
  λ _ _, Normal "".

(** A payload whose U header declares a grid of 2 by 2 and whose U data has
    three samples. *)
Definition short_body : json :=
  JArray [grid 2 2 [1; 0; -1]; grid 2 2 [0; 1; 1; -2]]%Z.

Definition short_store : heap := (reify short_body []).2.

Definition short_payload : payload :=
  {| uHeader := VRef 0; uLoc := 1; uData := samples [1; 0; -1]%Z;
     vHeader := VRef 3; vLoc := 4; vData := samples [0; 1; 1; -2]%Z |}.

(** A payload of the declared size in which every sample is zero. *)
Definition calm_body : json :=
  JArray [grid 2 2 [0; 0; 0; 0]; grid 2 2 [0; 0; 0; 0]]%Z.

Definition calm_store : heap := (reify calm_body []).2.

Definition calm_payload : payload :=
  {| uHeader := VRef 0; uLoc := 1; uData := samples [0; 0; 0; 0]%Z;
     vHeader := VRef 3; vLoc := 4; vData := samples [0; 0; 0; 0]%Z |}.

(** A payload whose U header has no [nx]. *)
Definition sizeless_body : json :=
  JArray [JObject [("header", JObject [("ny", JInt 2)]);
                   ("data", JArray (map JInt [1; 0; -1; 2]%Z))];
          grid 2 2 [0; 1; 1; -2]%Z].

Definition sizeless_store : heap := (reify sizeless_body []).2.

(** A payload for a grid without points. *)
Definition empty_body : json := JArray [grid 0 5 []; grid 0 5 []]%Z.

Definition empty_store : heap := (reify empty_body []).2.

Definition empty_payload : payload :=
  {| uHeader := VRef 0; uLoc := 1; uData := [];
     vHeader := VRef 3; vLoc := 4; vData := [] |}.

(** A payload whose U header has an [nx] that cannot be converted to a
    number: an object with an own [toString] property. *)
Definition stubborn_body : json :=
  JArray [JObject [("header",
                    JObject [("nx", JObject [("toString", JInt 1)]);
                             ("ny", JInt 2)]);
                   ("data", JArray (map JInt [1; 0; -1; 2]%Z))];
          grid 2 2 [0; 1; 1; -2]%Z].

(** A payload whose U header has no [nx] and such an [ny]. *)
Definition stubborn_sizeless_body : json :=
  JArray [JObject [("header",
                    JObject [("ny", JObject [("toString", JInt 1)])]);
                   ("data", JArray (map JInt [1; 0; -1; 2]%Z))];
          grid 2 2 [0; 1; 1; -2]%Z].

Definition stubborn_sizeless_store : heap :=
  (reify stubborn_sizeless_body []).2.

Definition stubborn_sizeless_payload : payload :=
  {| uHeader := VRef 1; uLoc := 2; uData := samples [1; 0; -1; 2]%Z;
     vHeader := VRef 4; vLoc := 5; vData := samples [0; 1; 1; -2]%Z |}.

(** A payload whose headers come with a [parameterNumber] of the provider
    and with a field of its own besides [nx] and [ny]. *)
Definition labelled (parameterNumber : Z) (samples : list Z) : json :=
  JObject [("header", JObject [("parameterNumber", JInt parameterNumber);
                               ("nx", JInt 2); ("ny", JInt 2);
                               ("refTime", JString "2024-05-01T00:00Z")]);
           ("data", JArray (map JInt samples))].

Definition labelled_body : json :=
  JArray [labelled 99 [1; 0; -1; 2]; labelled 98 [0; 1; 1; -2]]%Z.

Definition labelled_store : heap := (reify labelled_body []).2.

(** ** The tagged payload *)

(** [c] is an object whose [header] field is an object with
    [parameterNumber] equal to [n], and whose [data] field is the array of
    [samples] at [ldata]. *)
Definition tagged_component (h : heap) (c : value) (n : Z) (ldata : loc)
    (samples : list value) : Prop :=
  ∃ l m lh mh, c = VRef l ∧ h !! l = Some (OObj m) ∧
               m !! "header" = Some (VRef lh) ∧ h !! lh = Some (OObj mh) ∧
               mh !! "parameterNumber" = Some (VNum (num_of_Z n)) ∧
               m !! "data" = Some (VRef ldata) ∧
               h !! ldata = Some (OArr samples).

(** [windData] is an array of two components, tagged 2 and 3, whose data
    are the arrays of [p], at their locations. *)
Definition tagged_payload (h : heap) (windData : value) (p : payload)
  : Prop :=
  ∃ l cu cv, windData = VRef l ∧ h !! l = Some (OArr [cu; cv]) ∧
             tagged_component h cu 2 (uLoc p) (uData p) ∧
             tagged_component h cv 3 (vLoc p) (vData p).


(** ** Attempts that fail before a body is parsed *)

(** The error of an answer that makes the [try] block throw before any
    body is parsed: there is no response, the status is outside 200 to 299,
    or the body is not JSON. An answer with a JSON body gives [None]. *)
Definition refused (r : fetch_result) : option error :=
  match r with
  | Rejected => Some NetworkError
  | Resolved r =>
      if negb (ok r) then Some (HttpError (status r))
      else match body r with
           | None => Some SyntaxError
           | Some _ => None
           end
  end.

(** [k] failed attempts that are each followed by a retry; [err i] is the
    error of the [i]-th of them. *)
Fixpoint retried (k attempt maxAttempts : nat) (err : nat → error)
  : list event :=
  match k with
  | 0 => []
  | S k' =>
      retry_events attempt maxAttempts (err 0) ++
      retried k' (attempt + 1) maxAttempts (λ i, err (S i))
  end.

(** The [i]-th of the next responses has a status from 200 to 299 and the
    JSON body [j]. *)
Definition serves_at (w : world) (i : nat) (j : json) : Prop :=
  ∃ st, net w (fetched w + i) = Resolved (Response st (Some j)) ∧
        (200 ≤ st ≤ 299)%Z.

(** ** Bodies at which the format check throws *)

Definition nullish (v : value) : Prop := v = VNull ∨ v = VUndef.

(** [c] is an object with a truthy [header] field. *)
Definition headed (h : heap) (c : value) : Prop :=
  ∃ l m header, c = VRef l ∧ h !! l = Some (OObj m) ∧
                m !! "header" = Some header ∧ ToBoolean header = true.

(** [data] is an array of two elements of which the first is [null] or
    [undefined], or of which the first has a truthy [header] and the second
    is [null] or [undefined]. *)
Definition null_element (h : heap) (data : value) : Prop :=
  ∃ l cu cv, data = VRef l ∧ h !! l = Some (OArr [cu; cv]) ∧
             (nullish cu ∨ (headed h cu ∧ nullish cv)).

(** The same on the JSON document. *)
Definition json_headed (c : json) : Prop :=
  ∃ ms header, c = JObject ms ∧ member "header" ms = Some header ∧
               json_truthy header = true.

Definition json_null_element (j : json) : Prop :=
  (∃ b, j = JArray [JNull; b]) ∨
  (∃ a, j = JArray [a; JNull] ∧ json_headed a).

(** The events of an attempt that ends in the format branch. *)
Definition rejection (attempt : nat) (data : value) : list event :=
  arrival attempt data ++
  [Console Error MsgUnexpectedFormat; Alert alert_invalid_format].

(** ** Further example inputs *)

(** A success whose body is not JSON. *)
Definition unparsable : fetch_result := Resolved (Response 200 None).

(** A body whose first element is a component and whose second is [null]. *)
Definition halved_body : json := JArray [grid 2 2 [1; 0; -1; 2]%Z; JNull].

(** A body whose first element has no header and whose second is [null]. *)
Definition headless_body : json :=
  JArray [JObject [("data", JArray [])]; JNull].
(** * Proofs *)

Arguments num_of_nat : simpl never.
Arguments num_of_Z : simpl never.
Arguments num_mul : simpl never.

(** ** Lengths as numbers *)

Lemma binary_round_aux_exact s m e :
  Zpos (digits2_pos m) = 53%Z → (-1074 <= e <= 971)%Z →
  binary_round_aux 53 1024 s (Zpos m) e loc_Exact = S754_finite s m e.
Proof.
  intros Hd He. unfold binary_round_aux, shr_fexp, fexp, emin, Zdigits2.
  rewrite Hd.
  replace (Z.max (53 + e - 53) (3 - 1024 - 53) - e)%Z with 0%Z by lia.
  simpl. rewrite Hd.
  replace (Z.max (53 + e - 53) (3 - 1024 - 53) - e)%Z with 0%Z by lia.
  simpl. destruct (Z.leb_spec e (1024 - 53)); [done|lia].
Qed.

Lemma digits2_pos_iter p k :
  digits2_pos (Pos.iter xO p k) = (digits2_pos p + k)%positive.
Proof.
  induction k using Pos.peano_ind.
  - simpl. lia.
  - rewrite Pos.iter_succ. simpl. rewrite IHk. lia.
Qed.

Lemma binary_round_small p :
  (Zpos (digits2_pos p) <= 53)%Z →
  ∃ m, binary_round 53 1024 false p 0 =
       S754_finite false m (Zpos (digits2_pos p) - 53).
Proof.
  intros Hd. unfold binary_round, shl_align, fexp, emin.
  replace (Z.max (Z.pos (digits2_pos p) + 0 - 53) (3 - 1024 - 53) - 0)%Z
    with (Zpos (digits2_pos p) - 53)%Z by lia.
  replace (Z.max (Z.pos (digits2_pos p) + 0 - 53) (3 - 1024 - 53))%Z
    with (Zpos (digits2_pos p) - 53)%Z by lia.
  destruct (Z.pos (digits2_pos p) - 53)%Z as [|k|k] eqn:Hk; [| lia |].
  - exists p. by rewrite binary_round_aux_exact by lia.
  - exists (Pos.iter xO p k). rewrite binary_round_aux_exact; [done| |lia].
    rewrite digits2_pos_iter. lia.
Qed.

Lemma digits2_pos_le p : ∀ n,
  (Zpos p < 2 ^ n)%Z → (0 <= n)%Z → (Zpos (digits2_pos p) <= n)%Z.
Proof.
  assert (∀ q n, (Zpos q < 2 ^ n)%Z → (0 <= n)%Z → (0 < n)%Z) as Hpos.
  { intros q n Hq Hn. destruct (Z.eq_dec n 0%Z) as [->|?]; [|lia].
    simpl in Hq. lia. }
  induction p as [p IH|p IH|]; intros n Hp Hn; simpl digits2_pos;
    rewrite ?Pos2Z.inj_succ; pose proof (Hpos _ _ Hp Hn); [| |lia];
    replace n with (Z.succ (n - 1)) in Hp by lia;
    rewrite Z.pow_succ_r in Hp by lia;
    specialize (IH (n - 1)%Z); lia.
Qed.

Lemma shr_exponent mrs e n : (e <= (shr mrs e n).2)%Z.
Proof. destruct n; simpl; lia. Qed.

Lemma binary_round_aux_exponent s m e l :
  match binary_round_aux 53 1024 s m e l with
  | S754_finite _ _ e2 => ((shr_fexp 53 1024 m e l).2 <= e2)%Z
  | _ => True
  end.
Proof.
  unfold binary_round_aux.
  destruct (shr_fexp 53 1024 m e l) as [mrs1 e1]. simpl.
  set (m1 := round_nearest_even _ _).
  pose proof (shr_exponent (shr_record_of_loc m1 loc_Exact) e1
                (fexp 53 1024 (Zdigits2 m1 + e1) - e1)) as He.
  unfold shr_fexp.
  destruct (shr _ e1 _) as [mrs2 e2]. simpl in He.
  destruct (shr_m mrs2); [done| |done].
  by destruct (e2 <=? 1024 - 53)%Z.
Qed.

Lemma binary_round_large p :
  (53 < Zpos (digits2_pos p))%Z →
  match binary_round 53 1024 false p 0 with
  | S754_finite _ _ e => (1 <= e)%Z
  | _ => True
  end.
Proof.
  intros Hd. unfold binary_round, shl_align, fexp, emin.
  replace (Z.max (Z.pos (digits2_pos p) + 0 - 53) (3 - 1024 - 53) - 0)%Z
    with (Zpos (digits2_pos p) - 53)%Z by lia.
  destruct (Z.pos (digits2_pos p) - 53)%Z as [|k|k] eqn:Hk; [lia| |lia].
  pose proof (binary_round_aux_exponent false (Zpos p) 0 loc_Exact) as He.
  destruct (binary_round_aux 53 1024 false (Z.pos p) 0 loc_Exact);
    try done.
  revert He. unfold shr_fexp, fexp, emin, Zdigits2, shr.
  replace (Z.max (Z.pos (digits2_pos p) + 0 - 53) (3 - 1024 - 53) - 0)%Z
    with (Zpos k) by lia.
  simpl. lia.
Qed.

Lemma num_of_nat_two n :
  SFeqb (num_of_nat n) (num_of_Z 2) = true → n = 2%nat.
Proof.
  unfold num_of_nat, num_of_Z at 1, binary_normalize.
  change prec with 53%Z. change emax with 1024%Z.
  destruct (Z.of_nat n) as [|p|p] eqn:Hp; [done| |lia].
  change (num_of_Z 2) with (S754_finite false 4503599627370496 (-51)).
  destruct (Pos.eq_dec (digits2_pos p) 2%positive) as [Hd|Hd].
  - destruct p as [[]|[]|]; simpl in Hd; try lia.
    intros Heq. vm_compute in Heq. discriminate Heq.
  - destruct (Z_le_gt_dec (Zpos (digits2_pos p)) 53) as [Hs|Hl].
    + destruct (binary_round_small p Hs) as [m ->].
      unfold SFeqb, SFcompare.
      destruct (Z.compare_spec (Z.pos (digits2_pos p) - 53) (-51));
        [lia|done..].
    + pose proof (binary_round_large p) as He.
      destruct (binary_round 53 1024 false p 0) as [| | |s m e];
        try done; [by destruct s|].
      unfold SFeqb, SFcompare. destruct s; [done|].
      destruct (Z.compare_spec e (-51)); [lia|done..].
Qed.

(** ** Running computations *)

Lemma bind_normal {A B} (c : M A) (k : A → M B) w a w1 :
  c w = (Normal a, w1) → bind c k w = k a w1.
Proof. unfold bind. by intros ->. Qed.

(** Rewriting with what is known of the store. *)
Ltac look :=
  repeat (simpl;
          match goal with
          | H : ?x !! ?k = Some _ |- context [?x !! ?k] => rewrite H
          | H : ToBoolean ?v = _ |- context [ToBoolean ?v] => rewrite H
          end);
  simpl.

Ltac unfold_ops :=
  unfold or_else, negated, isArray, get_field, get_elem, read, bind, ret, throw,
    console, alert, sleep, emit, get_heap, set_heap.

Lemma invalid_format_payload w data p :
  wind_payload (heap_of w) data p → invalid_format data w = (Normal false, w).
Proof.
  intros (l & cu & cv & -> & Hl & (lu & mu & -> & Hlu & Huh & Hut & Hud & Hua)
          & (lv & mv & -> & Hlv & Hvh & Hvt & Hvd & Hva)).
  unfold invalid_format. unfold_ops. look.
  done.
Qed.

Lemma ok_status r : ok r = true ↔ (200 ≤ status r ≤ 299)%Z.
Proof. unfold ok. rewrite andb_true_iff, !Z.leb_le. done. Qed.

Lemma attempt_body_payload w j data h1 p :
  serves w j → reify j (heap_of w) = (data, h1) → wind_payload h1 data p →
  attempt_body w =
    (Normal data,
     logged (answered w h1) [Fetch url; Console Log (MsgApiResponse data)]).
Proof.
  intros (st & Hnet & Hst) Hreify Hp.
  unfold attempt_body.
  erewrite bind_normal; last first.
  { unfold fetch. rewrite Hnet. reflexivity. }
  replace (ok _) with true by (symmetry; by apply ok_status).
  simpl. unfold response_json. simpl.
  unfold_ops. simpl. rewrite Hreify. simpl.
  rewrite invalid_format_payload with (p := p) by done.
  unfold logged, answered. simpl. by rewrite <- app_assoc.
Qed.

Lemma fetchWindData_run attempt maxAttempts w :
  fetchWindData attempt maxAttempts w =
  try_catch attempt_body
    (λ error,
       console Error (MsgAttemptFailed attempt error) ;;
       match lt_dec attempt maxAttempts with
       | left _ =>
           console Log (MsgRetrying (attempt + 1) maxAttempts) ;;
           sleep 2000 ;;
           fetchWindData (attempt + 1) maxAttempts
       | right _ =>
           console Error (MsgMaxRetries error) ;;
           alert alert_fetch_failed ;;
           ret VNull
       end)
    (logged w [Console Log (MsgFetching attempt url)]).
Proof. by rewrite fetchWindData_equation_1. Qed.

Lemma fetchWindData_payload w attempt maxAttempts j data h1 p :
  serves w j → reify j (heap_of w) = (data, h1) → wind_payload h1 data p →
  fetchWindData attempt maxAttempts w =
    (Normal data,
     logged (answered w h1)
       [Console Log (MsgFetching attempt url); Fetch url;
        Console Log (MsgApiResponse data)]).
Proof.
  intros Hs Hr Hp. rewrite fetchWindData_run. unfold try_catch.
  erewrite attempt_body_payload; [|exact Hs|exact Hr|exact Hp].
  unfold logged, answered. simpl. by rewrite <- app_assoc.
Qed.

(** ** Parsing *)

Lemma json_induction (P : json → Prop) :
  P JNull → (∀ b, P (JBool b)) → (∀ x, P (JNumber x)) →
  (∀ s, P (JString s)) →
  (∀ xs, Forall P xs → P (JArray xs)) →
  (∀ ms, Forall (λ kx, P kx.2) ms → P (JObject ms)) →
  ∀ j, P j.
Proof.
  intros Hnull Hbool Hnum Hstr Harr Hobj. fix IH 1.
  intros [|b|x|s|xs|ms];
    [apply Hnull|apply Hbool|apply Hnum|apply Hstr| |].
  - apply Harr. induction xs as [|x xs IHxs]; constructor.
    + apply IH.
    + exact IHxs.
  - apply Hobj. induction ms as [|[k x] ms IHms]; constructor.
    + apply IH.
    + exact IHms.
Qed.

Lemma elements_prefix xs :
  Forall (λ x, ∀ h, h `prefix_of` (reify x h).2) xs →
  ∀ h, h `prefix_of` (elements reify xs h).2.
Proof.
  induction 1 as [|x xs Hx _ IH]; intros h; simpl; [done|].
  specialize (Hx h). destruct (reify x h) as [v h1]. simpl in Hx.
  specialize (IH h1). destruct (elements reify xs h1) as [vs h2].
  simpl in *. by etrans.
Qed.

Lemma members_prefix ms :
  Forall (λ kx, ∀ h, h `prefix_of` (reify kx.2 h).2) ms →
  ∀ m h, h `prefix_of` (members reify ms m h).2.
Proof.
  induction 1 as [|[k x] ms Hx _ IH]; intros m h; simpl; [done|].
  specialize (Hx h). simpl in Hx. destruct (reify x h) as [v h1].
  simpl in Hx. specialize (IH (<[k:=v]> m) h1). by etrans.
Qed.

(** Parsing only adds objects to the store. *)
Lemma reify_prefix j : ∀ h, h `prefix_of` (reify j h).2.
Proof.
  induction j as [|b|x|s|xs IH|ms IH] using json_induction; intros h;
    simpl; try done.
  - pose proof (elements_prefix xs IH h) as Hp.
    destruct (elements reify xs h) as [vs h1]. simpl in *.
    etrans; [exact Hp|]. by apply prefix_app_r.
  - pose proof (members_prefix ms IH ∅ h) as Hp.
    destruct (members reify ms ∅ h) as [m h1]. simpl in *.
    etrans; [exact Hp|]. by apply prefix_app_r.
Qed.

Lemma members_prefix' ms m h : h `prefix_of` (members reify ms m h).2.
Proof.
  apply members_prefix, Forall_forall. intros kx _ h'. apply reify_prefix.
Qed.

Lemma reify_truthy j h : ToBoolean (reify j h).1 = json_truthy j.
Proof.
  destruct j as [|b|x|s|xs|ms]; simpl; try done.
  - by destruct (elements reify xs h).
  - by destruct (members reify ms ∅ h).
Qed.

Lemma reify_array xs h :
  ∃ l vs, (reify (JArray xs) h).1 = VRef l ∧
          (reify (JArray xs) h).2 !! l = Some (OArr vs).
Proof.
  simpl. destruct (elements reify xs h) as [vs h1]. simpl.
  exists (length h1), vs. split; [done|]. apply list_lookup_middle. done.
Qed.

(** The properties of a parsed object are its members, parsed. *)
Lemma members_lookup k ms : ∀ m h,
  match member k ms with
  | Some x => ∃ hx, (members reify ms m h).1 !! k = Some (reify x hx).1 ∧
                    (reify x hx).2 `prefix_of` (members reify ms m h).2
  | None => (members reify ms m h).1 !! k = m !! k
  end.
Proof.
  induction ms as [|[k' x] ms IH]; intros m h; simpl; [done|].
  destruct (reify x h) as [v h1] eqn:Hx.
  specialize (IH (<[k':=v]> m) h1).
  destruct (member k ms) as [y|]; [done|].
  destruct (String.eqb_spec k k') as [->|Hne].
  - exists h. rewrite Hx, IH, lookup_insert_eq. split; [done|].
    apply members_prefix'.
  - by rewrite IH, lookup_insert_ne.
Qed.

Lemma reify_component c h :
  json_component c →
  ∃ header ldata samples,
    ∀ h', (reify c h).2 `prefix_of` h' →
          component h' (reify c h).1 header ldata samples.
Proof.
  intros (ms & hd & xs & -> & Hh & Ht & Hd). simpl.
  pose proof (members_lookup "header" ms ∅ h) as Hmh. rewrite Hh in Hmh.
  pose proof (members_lookup "data" ms ∅ h) as Hmd. rewrite Hd in Hmd.
  destruct (members reify ms ∅ h) as [m h1]. cbn [fst snd] in *.
  destruct Hmh as (hx & Hmh & _). destruct Hmd as (hy & Hmd & Hpre).
  destruct (reify_array xs hy) as (ld & vs & Hv & Hld).
  exists (reify hd hx).1, ld, vs. intros h' Hh'.
  exists (length h1), m. split; [done|].
  split.
  { eapply prefix_lookup_Some; [|exact Hh']. by apply list_lookup_middle. }
  split; [done|]. split; [by rewrite reify_truthy|].
  split; [by rewrite Hmd, Hv|].
  eapply prefix_lookup_Some; [exact Hld|].
  etrans; [exact Hpre|]. etrans; [|exact Hh']. by apply prefix_app_r.
Qed.

(** A document of the shape parses to a payload of the shape. *)
Lemma reify_wind_payload j h :
  json_wind_payload j →
  ∃ p, wind_payload (reify j h).2 (reify j h).1 p.
Proof.
  intros (cu & cv & -> & Hu & Hv). simpl.
  destruct (reify_component cu h Hu) as (uh & ul & us & Hcu).
  pose proof (reify_prefix cv (reify cu h).2) as Hpre.
  destruct (reify_component cv (reify cu h).2 Hv) as (vh & vl & vs & Hcv).
  destruct (reify cu h) as [vu hu]. simpl in *.
  destruct (reify cv hu) as [vv hv]. simpl in *.
  exists (Payload uh ul us vh vl vs), (length hv), vu, vv. simpl.
  split; [done|]. split; [by apply list_lookup_middle|]. split.
  - apply Hcu. etrans; [exact Hpre|]. by apply prefix_app_r.
  - apply Hcv. by apply prefix_app_r.
Qed.

Lemma reify_ref j h l :
  (reify j h).1 = VRef l →
  (∃ xs, j = JArray xs ∧
         (reify j h).2 !! l = Some (OArr (elements reify xs h).1)) ∨
  (∃ ms, j = JObject ms ∧
         (reify j h).2 !! l = Some (OObj (members reify ms ∅ h).1)).
Proof.
  destruct j as [|b|x|s|xs|ms]; try done.
  - change (reify (JArray xs) h)
      with (let '(vs, h1) := elements reify xs h in
            (VRef (length h1), h1 ++ [OArr vs])).
    destruct (elements reify xs h) as [vs h1] eqn:He. simpl. intros [= <-].
    left. exists xs. rewrite He. split; [done|]. by apply list_lookup_middle.
  - change (reify (JObject ms) h)
      with (let '(m, h1) := members reify ms ∅ h in
            (VRef (length h1), h1 ++ [OObj m])).
    destruct (members reify ms ∅ h) as [m h1] eqn:He. simpl. intros [= <-].
    right. exists ms. rewrite He. split; [done|]. by apply list_lookup_middle.
Qed.

Lemma component_json c hc h' header ldata samples :
  (reify c hc).2 `prefix_of` h' →
  component h' (reify c hc).1 header ldata samples → json_component c.
Proof.
  intros Hpre (l & m & Hc & Hl & Hh & Ht & Hd & Ha).
  destruct (reify_ref c hc l Hc) as [(xs & -> & Hxs)|(ms & -> & Hms)].
  { pose proof (prefix_lookup_Some _ _ _ _ Hxs Hpre) as Hl'.
    unfold loc, heap in *. congruence. }
  pose proof (prefix_lookup_Some _ _ _ _ Hms Hpre) as Hl'.
  assert (m = (members reify ms ∅ hc).1) as ->
    by (unfold loc, heap in *; congruence).
  pose proof (members_lookup "header" ms ∅ hc) as Hmh.
  pose proof (members_lookup "data" ms ∅ hc) as Hmd.
  assert ((members reify ms ∅ hc).2 `prefix_of` h') as Hpre'.
  { etrans; [|exact Hpre]. simpl.
    destruct (members reify ms ∅ hc). by apply prefix_app_r. }
  destruct (member "header" ms) as [x|] eqn:Hx;
    [|by rewrite Hh, lookup_empty in Hmh].
  destruct (member "data" ms) as [y|] eqn:Hy;
    [|by rewrite Hd, lookup_empty in Hmd].
  destruct Hmh as (hx & Hmh & _). destruct Hmd as (hy & Hmd & Hprey).
  rewrite Hh in Hmh. injection Hmh as ->.
  rewrite Hd in Hmd. injection Hmd as Hld.
  exists ms, x. rewrite reify_truthy in Ht.
  destruct (reify_ref y hy ldata (eq_sym Hld))
    as [(xs & -> & Hxs)|(ms' & -> & Hms')].
  - by exists xs.
  - assert (h' !! ldata = Some (OObj (members reify ms' ∅ hy).1)) as Ho.
    { eapply prefix_lookup_Some; [exact Hms'|]. by etrans. }
    unfold loc, heap in *. congruence.
Qed.

(** A payload of the shape comes from a document of the shape. *)
Lemma wind_payload_json j h p :
  wind_payload (reify j h).2 (reify j h).1 p → json_wind_payload j.
Proof.
  intros (l & cu & cv & Hd & Hl & Hu & Hv).
  destruct (reify_ref j h l Hd) as [(xs & -> & Hxs)|(ms & -> & Hms)];
    [|rewrite Hl in Hms; discriminate Hms].
  rewrite Hl in Hxs. injection Hxs as Hvs. revert Hu Hv. simpl.
  destruct xs as [|a [|b [|? ?]]]; simpl in Hvs |- *.
  - discriminate Hvs.
  - destruct (reify a h). discriminate Hvs.
  - pose proof (reify_prefix b (reify a h).2) as Hpre.
    destruct (reify a h) as [va ha] eqn:Ha. simpl in *.
    destruct (reify b ha) as [vb hb] eqn:Hb. simpl in *.
    injection Hvs as -> ->. intros Hu Hv. exists a, b. split; [done|].
    split.
    + apply (component_json a h (hb ++ [OArr [va; vb]])
               (uHeader p) (uLoc p) (uData p)); rewrite Ha; [|done].
      simpl. etrans; [exact Hpre|]. by apply prefix_app_r.
    + apply (component_json b ha (hb ++ [OArr [va; vb]])
               (vHeader p) (vLoc p) (vData p)); rewrite Hb; [|done].
      simpl. by apply prefix_app_r.
  - destruct (reify a h) as [va ha]. destruct (reify b ha) as [vb hb].
    destruct (reify _ hb) as [vc hc]. destruct (elements reify _ hc).
    discriminate Hvs.
Qed.

(** ** Requests that fail *)

Lemma attempt_body_fails w :
  fails (net w (fetched w)) →
  attempt_body w =
    (Throw (failure (net w (fetched w))),
     logged (answered w (heap_of w)) [Fetch url]).
Proof.
  intros Hf. unfold attempt_body, fetch, bind.
  destruct (net w (fetched w)) as [|r] eqn:Hnet; simpl in *; [done|].
  destruct (ok r) eqn:Hok; [|done].
  apply ok_status in Hok. done.
Qed.

Lemma exhausted_ext n : ∀ attempt maxAttempts err1 err2,
  (∀ i, i ≤ n → err1 i = err2 i) →
  exhausted n attempt maxAttempts err1 = exhausted n attempt maxAttempts err2.
Proof.
  induction n as [|n IH]; intros attempt maxAttempts err1 err2 Hext; simpl.
  - by rewrite (Hext 0).
  - rewrite (Hext 0) by lia. unfold retry_events. simpl. do 5 f_equal.
    apply IH. intros i Hi. apply Hext. lia.
Qed.

Lemma fetchWindData_exhausted n : ∀ attempt maxAttempts w,
  maxAttempts - attempt = n →
  (∀ i, i ≤ n → fails (net w (fetched w + i))) →
  fetchWindData attempt maxAttempts w =
    (Normal VNull,
     {| heap_of := heap_of w; net := net w; fetched := fetched w + S n;
        trace := trace w ++
                 exhausted n attempt maxAttempts
                   (λ i, failure (net w (fetched w + i))) |}).
Proof.
  induction n as [|n IH]; intros attempt maxAttempts w Hn Hfail.
  - rewrite fetchWindData_run. unfold try_catch.
    rewrite attempt_body_fails; last first.
    { specialize (Hfail 0). rewrite Nat.add_0_r in Hfail. apply Hfail. lia. }
    destruct (lt_dec attempt maxAttempts); [lia|].
    unfold_ops. simpl. rewrite !Nat.add_0_r, Nat.add_1_r.
    by rewrite <- !app_assoc.
  - rewrite fetchWindData_run. unfold try_catch.
    rewrite attempt_body_fails; last first.
    { specialize (Hfail 0). rewrite Nat.add_0_r in Hfail. apply Hfail. lia. }
    destruct (lt_dec attempt maxAttempts); [|lia].
    unfold_ops. simpl. rewrite IH; simpl.
    + rewrite Nat.add_0_r. f_equal. f_equal; [lia|].
      rewrite <- !app_assoc. simpl. do 6 f_equal.
      apply exhausted_ext. intros i _. do 2 f_equal. lia.
    + lia.
    + intros i Hi. replace (S (fetched w + i)) with (fetched w + S i) by lia.
      apply Hfail. lia.
Qed.

Lemma exhausted_fetches n : ∀ attempt maxAttempts err,
  length (List.filter is_fetch (exhausted n attempt maxAttempts err)) = S n.
Proof.
  induction n as [|n IH]; intros attempt maxAttempts err; simpl; [done|].
  by rewrite IH.
Qed.

Lemma exhausted_timeouts n : ∀ attempt maxAttempts err,
  List.filter is_timeout (exhausted n attempt maxAttempts err) =
  replicate n (SetTimeout 2000).
Proof.
  induction n as [|n IH]; intros attempt maxAttempts err; simpl; [done|].
  by rewrite IH.
Qed.

Lemma exhausted_alerts n : ∀ attempt maxAttempts err,
  List.filter is_alert (exhausted n attempt maxAttempts err) =
  [Alert alert_fetch_failed].
Proof.
  induction n as [|n IH]; intros attempt maxAttempts err; simpl; [done|].
  by rewrite IH.
Qed.

Lemma exhausted_delay n : ∀ attempt maxAttempts err i u,
  exhausted n attempt maxAttempts err !! S (S i) = Some (Fetch u) →
  exhausted n attempt maxAttempts err !! i = Some (SetTimeout 2000).
Proof.
  induction n as [|n IH]; intros attempt maxAttempts err i u; simpl.
  - destruct i as [|[|[|i]]]; simpl; try done.
  - destruct i as [|[|[|[|[|i]]]]]; simpl; try done.
    + destruct n; done.
    + apply IH.
Qed.

Lemma exhausted_last n : ∀ attempt maxAttempts err,
  last (exhausted n attempt maxAttempts err) = Some (Alert alert_fetch_failed).
Proof.
  induction n as [|n IH]; intros attempt maxAttempts err; simpl; [done|].
  rewrite !last_cons, IH. done.
Qed.

(** ** The literal of [windData] *)

Lemma windData_literal_run uHeader uData vHeader vData w :
  windData_literal uHeader uData vHeader vData w =
    (Normal (VRef (length (heap_of w) + 4)),
     {| heap_of := heap_of w ++
                   windData_objects (heap_of w) uHeader uData vHeader vData;
        net := net w; fetched := fetched w; trace := trace w |}).
Proof.
  unfold windData_literal, tag_header, component_literal, new, alloc.
  unfold_ops. simpl. rewrite <- !app_assoc. simpl.
  rewrite !length_app. simpl. repeat f_equal; lia.
Qed.

Lemma windData_objects_lookup h uHeader uData vHeader vData :
  let h' := h ++ windData_objects h uHeader uData vHeader vData in
  h' !! length h = Some (tagged h uHeader 2) ∧
  h' !! (length h + 1) = Some (component_obj (VRef (length h)) uData) ∧
  h' !! (length h + 2) =
    Some (tagged (h ++ [tagged h uHeader 2;
                        component_obj (VRef (length h)) uData]) vHeader 3) ∧
  h' !! (length h + 3) = Some (component_obj (VRef (length h + 2)) vData) ∧
  h' !! (length h + 4) =
    Some (OArr [VRef (length h + 1); VRef (length h + 3)]).
Proof.
  simpl. repeat split.
  - by rewrite lookup_app_r, Nat.sub_diag by lia.
  - rewrite lookup_app_r by lia.
    by replace (length h + 1 - length h) with 1 by lia.
  - rewrite lookup_app_r by lia.
    by replace (length h + 2 - length h) with 2 by lia.
  - rewrite lookup_app_r by lia.
    by replace (length h + 3 - length h) with 3 by lia.
  - rewrite lookup_app_r by lia.
    by replace (length h + 4 - length h) with 4 by lia.
Qed.

Lemma own_properties_app h k v :
  in_store h v → own_properties (h ++ k) v = own_properties h v.
Proof.
  destruct v as [| | | | |l]; try done. simpl. intros [o Ho].
  by rewrite (lookup_app_l_Some _ _ _ _ Ho), Ho.
Qed.

(** The map that a list gives under the indices of its items. *)
Lemma indexed_lookup {A} (f : A → value) (xs : list A) k x :
  (list_to_map (imap (λ i c, (pretty i, f c)) xs) : gmap string value) !! k
    = Some x ↔
  ∃ (i : nat) c, k = pretty i ∧ xs !! i = Some c ∧ x = f c.
Proof.
  rewrite <- elem_of_list_to_map.
  - rewrite elem_of_lookup_imap. split.
    + intros (i & c & [= -> ->] & Hc). by exists i, c.
    + intros (i & c & -> & Hc & ->). by exists i, c.
  - rewrite fmap_imap.
    rewrite (imap_ext _ (λ i _, pretty i) xs) by done.
    rewrite imap_seq_0. apply (NoDup_fmap_2 _), NoDup_seq.
Qed.

(** What the spread copies are the fields of the header. *)
Lemma own_properties_field h v k x :
  own_properties h v !! k = Some x ↔ has_field h v k x.
Proof.
  destruct v as [| | | |s|l]; simpl; try by rewrite lookup_empty.
  - apply indexed_lookup.
  - destruct (h !! l) as [[vs|m]|]; [|done|by rewrite lookup_empty].
    rewrite (indexed_lookup id). split.
    + intros (i & c & -> & Hc & ->). by exists i.
    + intros (i & -> & Hc). by exists i, x.
Qed.

Lemma tagged_payload_objects h p :
  h !! uLoc p = Some (OArr (uData p)) →
  h !! vLoc p = Some (OArr (vData p)) →
  tagged_payload
    (h ++ windData_objects h (uHeader p) (VRef (uLoc p))
            (vHeader p) (VRef (vLoc p)))
    (VRef (length h + 4)) p.
Proof.
  intros Hu Hv.
  destruct (windData_objects_lookup h (uHeader p) (VRef (uLoc p))
              (vHeader p) (VRef (vLoc p))) as (H0 & H1 & H2 & H3 & H4).
  exists (length h + 4), (VRef (length h + 1)), (VRef (length h + 3)).
  split; [done|]. split; [done|]. split.
  - eexists (length h + 1), _, (length h), _.
    split; [done|]. split; [exact H1|]. split; [done|].
    split; [exact H0|]. split; [apply lookup_insert_eq|].
    split; [apply lookup_insert_eq|]. by apply lookup_app_l_Some.
  - eexists (length h + 3), _, (length h + 2), _.
    split; [done|]. split; [exact H3|]. split; [done|].
    split; [exact H2|]. split; [apply lookup_insert_eq|].
    split; [apply lookup_insert_eq|]. by apply lookup_app_l_Some.
Qed.

(** ** The presenter on an accepted payload *)

Lemma get_truthy h v n : ToBoolean v = true → get h v n = Normal (field h v n).
Proof. unfold field. by destruct v. Qed.

Section PresenterProofs.

Variable StringToNumber : string → number.
Variable ArrayToString : heap → loc → outcome string.

Local Opaque windData_literal.

Lemma loadWindData_presents w data w1 p :
  fetchWindData 1 3 w = (Normal data, w1) →
  wind_payload (heap_of w1) data p →
  loadWindData StringToNumber ArrayToString w =
    (presenter_outcome StringToNumber ArrayToString (heap_of w1) p,
     {| heap_of := presenter_store StringToNumber ArrayToString
                     (heap_of w1) p;
        net := net w1; fetched := fetched w1;
        trace := trace w1 ++
                 presenter_events StringToNumber ArrayToString
                   (heap_of w1) p |}).
Proof.
  intros Hfetch (l & cu & cv & -> & Hl &
                 (lu & mu & -> & Hlu & Huh & Hut & Hud & Hua) &
                 (lv & mv & -> & Hlv & Hvh & Hvt & Hvd & Hva)).
  unfold loadWindData.
  rewrite (bind_normal _ _ _ _ _ Hfetch). simpl.
  unfold_ops. look.
  rewrite !(get_truthy _ _ _ Hut). simpl.
  unfold presenter_outcome, presenter_events, presenter_store, mismatch,
    degenerate, expected, length_of, inspected, some_nonzero, multiply, read.
  simpl.
  destruct (times _ _ _ _ _) as [e|err] eqn:Ee; simpl.
  2: { do 2 f_equal. by rewrite <- !app_assoc. }
  destruct (strict_neq (VNum (num_of_nat (length (uData p)))) e) eqn:E1;
    look.
  { rewrite Ee. simpl. do 2 f_equal. by rewrite <- !app_assoc. }
  rewrite Ee. simpl.
  destruct (strict_neq (VNum (num_of_nat (length (vData p)))) e) eqn:E2;
    look.
  { rewrite Ee. simpl. do 2 f_equal. by rewrite <- !app_assoc. }
  destruct (existsb nonzero (uData p)) eqn:E3; look.
  - rewrite windData_literal_run. simpl.
    do 2 f_equal. by rewrite <- !app_assoc.
  - destruct (existsb nonzero (vData p)) eqn:E4; look.
    + rewrite windData_literal_run. simpl.
      do 2 f_equal. by rewrite <- !app_assoc.
    + do 2 f_equal. by rewrite <- !app_assoc.
Qed.

End PresenterProofs.

(** ** What the format check establishes *)

Lemma truthy_header h c hd :
  get h c Nheader = Normal hd → ToBoolean hd = true →
  ∃ l m, c = VRef l ∧ h !! l = Some (OObj m) ∧ m !! "header" = Some hd.
Proof.
  intros Hget Ht. destruct c as [| | | | |l]; simpl in Hget;
    try by simplify_eq/=.
  destruct (h !! l) as [[vs|m]|] eqn:Hl; simplify_eq/=; try done.
  destruct (m !! "header") as [x|] eqn:Hm; simpl in Ht; [|done].
  by eexists _, _.
Qed.

Lemma array_data h c x :
  get h c Ndata = Normal x → is_array h x = true →
  ∃ l m ld samples, c = VRef l ∧ h !! l = Some (OObj m) ∧
                    m !! "data" = Some (VRef ld) ∧
                    h !! ld = Some (OArr samples).
Proof.
  intros Hget Ha. destruct c as [| | | | |l]; simpl in Hget;
    try by simplify_eq/=.
  destruct (h !! l) as [[vs|m]|] eqn:Hl; simplify_eq/=; try done.
  destruct (m !! "data") as [x|] eqn:Hm; simpl in Ha; [|done].
  destruct x as [| | | | |ld]; try done. simpl in Ha.
  destruct (h !! ld) as [[samples|?]|] eqn:Hld; try done.
  by eexists _, _, _, _.
Qed.

Create HintDb reads discriminated.

Lemma reads_only_ret {A} (a : A) : reads_only (ret a).
Proof. done. Qed.

Lemma reads_only_read {A} (f : heap → outcome A) : reads_only (read f).
Proof. done. Qed.

Lemma reads_only_bind {A B} (c : M A) (k : A → M B) :
  reads_only c → (∀ a, reads_only (k a)) → reads_only (bind c k).
Proof.
  intros Hc Hk w. unfold bind. specialize (Hc w).
  destruct (c w) as [[a|e] w1]; simpl in *; subst; [apply Hk|done].
Qed.

Lemma reads_only_or_else (c1 c2 : M bool) :
  reads_only c1 → reads_only c2 → reads_only (or_else c1 c2).
Proof.
  intros H1 H2. apply reads_only_bind; [done|].
  intros [|]; [apply reads_only_ret|done].
Qed.

#[local] Hint Resolve reads_only_ret reads_only_read reads_only_bind
  reads_only_or_else : reads.

Lemma invalid_format_reads data : reads_only (invalid_format data).
Proof.
  unfold invalid_format, negated, isArray, get_field, get_elem.
  auto 20 with reads.
Qed.

Lemma invalid_format_world data w o w' :
  invalid_format data w = (o, w') → w' = w.
Proof. intros H. pose proof (invalid_format_reads data w) as Hw.
  rewrite H in Hw. done. Qed.

Lemma or_else_false (c1 c2 : M bool) w w' :
  reads_only c1 → or_else c1 c2 w = (Normal false, w') →
  c1 w = (Normal false, w) ∧ c2 w = (Normal false, w').
Proof.
  intros Hr. unfold or_else, bind. specialize (Hr w).
  destruct (c1 w) as [[[|]|e] w1]; simpl in *; subst; try done.
Qed.

Lemma invalid_format_wind_payload data w w' :
  invalid_format data w = (Normal false, w') →
  ∃ p, wind_payload (heap_of w) data p.
Proof.
  unfold invalid_format. intros H.
  apply or_else_false in H as [H1 H];
    [|unfold isArray; auto 10 with reads].
  apply or_else_false in H as [H2 H];
    [|unfold get_field; auto 10 with reads].
  apply or_else_false in H as [H3 H];
    [|unfold negated, get_field, get_elem; auto 10 with reads].
  apply or_else_false in H as [H4 H];
    [|unfold negated, get_field, get_elem; auto 10 with reads].
  apply or_else_false in H as [H5 H6];
    [|unfold isArray, get_field, get_elem; auto 10 with reads].
  revert H1 H2 H3 H4 H5 H6. unfold_ops. simpl.
  destruct data as [| | | | |l]; try done. simpl.
  destruct (heap_of w !! l) as [[vs|m]|] eqn:Hl; try done. simpl.
  intros _ Hlen.
  assert (length vs = 2) as Hvs.
  { apply num_of_nat_two. unfold strict_neq, two in Hlen. simpl in Hlen.
    destruct (SFeqb _ _); [done|discriminate Hlen]. }
  destruct vs as [|cu [|cv [|]]]; try done. clear Hlen Hvs. simpl.
  destruct (get (heap_of w) cu Nheader) as [hu|] eqn:Hhu; [|done].
  destruct (get (heap_of w) cv Nheader) as [hv|] eqn:Hhv; [|done].
  destruct (get (heap_of w) cu Ndata) as [du|] eqn:Hdu; [|done].
  destruct (get (heap_of w) cv Ndata) as [dv|] eqn:Hdv; [|done].
  intros Htu Htv Hau Hav.
  assert (ToBoolean hu = true) as Hu
    by (destruct (ToBoolean hu); [done|discriminate Htu]).
  assert (ToBoolean hv = true) as Hv
    by (destruct (ToBoolean hv); [done|discriminate Htv]).
  assert (is_array (heap_of w) du = true) as Hu'
    by (destruct (is_array _ du); [done|discriminate Hau]).
  assert (is_array (heap_of w) dv = true) as Hv'
    by (destruct (is_array _ dv); [done|discriminate Hav]).
  destruct (truthy_header _ _ _ Hhu Hu) as (lu & mu & -> & Hlu & Hmu).
  destruct (truthy_header _ _ _ Hhv Hv) as (lv & mv & -> & Hlv & Hmv).
  destruct (array_data _ _ _ Hdu Hu')
    as (lu' & mu' & ldu & su & Hcu' & Hlu' & Hmu' & Hsu).
  destruct (array_data _ _ _ Hdv Hv')
    as (lv' & mv' & ldv & sv & Hcv' & Hlv' & Hmv' & Hsv).
  injection Hcu' as <-. injection Hcv' as <-.
  rewrite Hlu in Hlu'. rewrite Hlv in Hlv'.
  injection Hlu' as <-. injection Hlv' as <-.
  exists (Payload hu ldu su hv ldv sv), l, (VRef lu), (VRef lv).
  repeat split; try done; by eexists _, _.
Qed.

(** ** Bodies that the format check rejects *)

Lemma or_else_run (c1 c2 : M bool) w :
  reads_only c1 →
  or_else c1 c2 w =
    match (c1 w).1 with
    | Normal true => (Normal true, w)
    | Normal false => c2 w
    | Throw e => (Throw e, w)
    end.
Proof.
  intros Hr. unfold or_else, bind. specialize (Hr w).
  destruct (c1 w) as [[[|]|e] w1]; simpl in *; by subst.
Qed.

(** The format check throws only at an element that is [null] or
    [undefined]. *)
Lemma invalid_format_throws data w e w' :
  invalid_format data w = (Throw e, w') →
  ∃ l cu cv, data = VRef l ∧ heap_of w !! l = Some (OArr [cu; cv]) ∧
             (cu = VNull ∨ cu = VUndef ∨ cv = VNull ∨ cv = VUndef).
Proof.
  unfold invalid_format.
  rewrite or_else_run by (unfold isArray; auto 10 with reads).
  rewrite or_else_run by (unfold get_field; auto 10 with reads).
  rewrite or_else_run
    by (unfold negated, get_field, get_elem; auto 10 with reads).
  rewrite or_else_run
    by (unfold negated, get_field, get_elem; auto 10 with reads).
  rewrite or_else_run
    by (unfold isArray, get_field, get_elem; auto 10 with reads).
  unfold_ops. simpl.
  destruct data as [| | | | |l]; try done. simpl.
  destruct (heap_of w !! l) as [[vs|m]|] eqn:Hl; try done. simpl.
  destruct (strict_neq (VNum (num_of_nat (length vs))) two) eqn:Hlen;
    [done|].
  assert (length vs = 2) as Hvs.
  { apply num_of_nat_two. unfold strict_neq, two in Hlen. simpl in Hlen.
    destruct (SFeqb _ _); [done|discriminate Hlen]. }
  destruct vs as [|cu [|cv [|]]]; try done. clear Hlen Hvs. simpl.
  intros H. exists l, cu, cv. split; [done|]. split; [done|].
  destruct cu as [| | | | |lu]; auto; destruct cv as [| | | | |lv]; auto;
    exfalso; simpl in H;
    repeat (match type of H with
            | context [ToBoolean ?x] => destruct (ToBoolean x)
            | context [is_array ?h ?x] => destruct (is_array h x)
            end; simpl in H); discriminate H.
Qed.

Lemma reify_not_null j h :
  j ≠ JNull → (reify j h).1 ≠ VNull ∧ (reify j h).1 ≠ VUndef.
Proof.
  destruct j as [|b|x|s|xs|ms]; try done; intros _.
  - change (reify (JArray xs) h)
      with (let '(vs, h1) := elements reify xs h in
            (VRef (length h1), h1 ++ [OArr vs])).
    by destruct (elements reify xs h).
  - change (reify (JObject ms) h)
      with (let '(m, h1) := members reify ms ∅ h in
            (VRef (length h1), h1 ++ [OObj m])).
    by destruct (members reify ms ∅ h).
Qed.

Lemma reify_two_elements a b h l cu cv :
  (reify (JArray [a; b]) h).1 = VRef l →
  (reify (JArray [a; b]) h).2 !! l = Some (OArr [cu; cv]) →
  cu = (reify a h).1 ∧ cv = (reify b (reify a h).2).1.
Proof.
  simpl. destruct (reify a h) as [va ha]. simpl.
  destruct (reify b ha) as [vb hb]. simpl. intros [= <-]. intros Hl.
  pose proof (list_lookup_middle hb [] (OArr [va; vb]) (length hb) eq_refl)
    as Hl'.
  unfold loc, heap in *. rewrite Hl' in Hl. by injection Hl as <- <-.
Qed.

(** When the response is a success whose JSON body is not of the shape,
    and the body is not an array of two elements of which one is [null],
    [fetchWindData] logs the format error, alerts the user and returns
    [null] after this one request. *)
Lemma fetchWindData_rejects_format w attempt maxAttempts j :
  serves w j → ¬ json_wind_payload j →
  (∀ a b, j = JArray [a; b] → a ≠ JNull ∧ b ≠ JNull) →
  fetchWindData attempt maxAttempts w =
    (Normal VNull,
     {| heap_of := (reify j (heap_of w)).2; net := net w;
        fetched := S (fetched w);
        trace := trace w ++ arrival attempt (reify j (heap_of w)).1 ++
                 [Console Error MsgUnexpectedFormat;
                  Alert alert_invalid_format] |}).
Proof.
  intros (st & Hnet & Hst) Hshape Hnull.
  rewrite fetchWindData_run. unfold try_catch, attempt_body.
  erewrite bind_normal; last first.
  { unfold fetch. simpl. rewrite Hnet. reflexivity. }
  replace (ok _) with true by (symmetry; by apply ok_status).
  simpl. unfold response_json. simpl. unfold_ops. simpl.
  destruct (reify j (heap_of w)) as [data h1] eqn:Hj. simpl.
  match goal with |- context [invalid_format data ?w3] =>
    destruct (invalid_format data w3) as [o w4] eqn:Hinv;
    pose proof (invalid_format_world _ _ _ _ Hinv) as ->
  end.
  destruct o as [[|]|e]; simpl.
  - by rewrite <- !app_assoc.
  - exfalso. apply invalid_format_wind_payload in Hinv as [p Hp].
    apply Hshape, (wind_payload_json j (heap_of w) p). by rewrite Hj.
  - exfalso.
    apply invalid_format_throws in Hinv
      as (l & cu & cv & -> & Hl & Hcases). simpl in Hl.
    assert (∃ a b, j = JArray [a; b]) as (a & b & ->).
    { destruct (reify_ref j (heap_of w) l) as [(xs & -> & Hxs)|(ms & -> & Hms)];
        [by rewrite Hj| |].
      - rewrite Hj in Hxs. simpl in Hxs. unfold loc, heap in *.
        assert (Some (OArr [cu; cv]) =
                Some (OArr (elements reify xs (heap_of w)).1)) as [= Hvs]
          by (rewrite <- Hl; exact Hxs).
        symmetry in Hvs.
        destruct xs as [|a [|b [|c xs]]]; simpl in Hvs.
        + discriminate Hvs.
        + destruct (reify a (heap_of w)). discriminate Hvs.
        + by exists a, b.
        + destruct (reify a (heap_of w)) as [? h2].
          destruct (reify b h2) as [? h3]. destruct (reify c h3) as [? h4].
          destruct (elements reify xs h4). discriminate Hvs.
      - rewrite Hj in Hms. simpl in Hms.
        assert (Some (OArr [cu; cv]) =
                Some (OObj (members reify ms ∅ (heap_of w)).1)) as [=]
          by (rewrite <- Hl; exact Hms). }
    destruct (Hnull a b eq_refl) as [Ha Hb].
    destruct (reify_two_elements a b (heap_of w) l cu cv) as [-> ->];
      [by rewrite Hj|by rewrite Hj|].
    destruct (reify_not_null a (heap_of w) Ha) as [? ?].
    destruct (reify_not_null b (reify a (heap_of w)).2 Hb) as [? ?].
    tauto.
Qed.

(** A success whose JSON body is an array of two elements of which the
    first is [null] makes the [try] block throw a [TypeError], like a
    failed request. *)
Lemma attempt_body_null_element w st b :
  net w (fetched w) = Resolved (Response st (Some (JArray [JNull; b]))) →
  (200 ≤ st ≤ 299)%Z →
  ∃ w', attempt_body w = (Throw TypeError, w').
Proof.
  intros Hnet Hst. unfold attempt_body.
  erewrite bind_normal; last first.
  { unfold fetch. rewrite Hnet. reflexivity. }
  replace (ok _) with true by (symmetry; by apply ok_status).
  simpl. unfold response_json. simpl. unfold_ops. simpl.
  destruct (reify b (heap_of w)) as [vb hb]. simpl.
  unfold invalid_format. unfold_ops. simpl.
  pose proof (list_lookup_middle hb [] (OArr [VNull; vb]) (length hb)
                eq_refl) as Hl.
  unfold loc, heap in *. repeat (rewrite Hl; simpl).
  by eexists.
Qed.

(** ** Every run of [fetchWindData] returns *)

Lemma reported_app_r evs1 evs2 : reported evs2 → reported (evs1 ++ evs2).
Proof.
  intros [[m Hm] [t Ht]]. split.
  - exists m. rewrite !elem_of_app. tauto.
  - exists t. rewrite elem_of_app. tauto.
Qed.

Lemma reported_cons e evs : reported evs → reported (e :: evs).
Proof. apply (reported_app_r [e]). Qed.

Lemma attempt_body_cases w :
  ∃ o h evs,
    attempt_body w =
      (o, {| heap_of := h; net := net w; fetched := S (fetched w);
             trace := trace w ++ evs |}) ∧
    match o with
    | Throw _ => True
    | Normal v => (v = VNull ∧ reported evs) ∨ (∃ p, wind_payload h v p)
    end.
Proof.
  unfold attempt_body, fetch, bind.
  destruct (net w (fetched w)) as [|r]; [by eexists _, _, _|].
  destruct (ok r); simpl; [|by eexists _, _, _].
  unfold response_json. destruct (body r) as [j|]; [|by eexists _, _, _].
  unfold_ops. simpl. destruct (reify j (heap_of w)) as [v h1]. simpl.
  match goal with |- context [invalid_format v ?w2] =>
    destruct (invalid_format v w2) as [o w3] eqn:Hinv;
    pose proof (invalid_format_world _ _ _ _ Hinv) as ->
  end.
  destruct o as [[|]|e]; simpl.
  - eexists _, _, _. rewrite <- !app_assoc. simpl. split; [done|].
    left. split; [done|]. split.
    + exists MsgUnexpectedFormat. left. set_solver.
    + exists alert_invalid_format. set_solver.
  - eexists _, _, _. rewrite <- !app_assoc. split; [done|].
    right. by apply invalid_format_wind_payload in Hinv.
  - eexists _, _, _. rewrite <- !app_assoc. done.
Qed.

Lemma fetchWindData_returns n : ∀ attempt maxAttempts w,
  maxAttempts - attempt = n →
  ∃ v w' evs,
    fetchWindData attempt maxAttempts w = (Normal v, w') ∧
    trace w' = trace w ++ evs ∧
    ((v = VNull ∧ reported evs) ∨ (∃ p, wind_payload (heap_of w') v p)).
Proof.
  induction n as [|n IH]; intros attempt maxAttempts w Hn;
    rewrite fetchWindData_run; unfold try_catch;
    destruct (attempt_body_cases
                (logged w [Console Log (MsgFetching attempt url)]))
      as (o & h & evs & -> & Ho); simpl in *;
    destruct o as [v|e].
  - eexists v, _, _. rewrite <- !app_assoc. split; [done|]. split; [done|].
    destruct Ho as [[-> Hr]|Ha]; [left|by right].
    split; [done|]. by apply reported_cons.
  - destruct (lt_dec attempt maxAttempts); [lia|].
    unfold_ops. simpl. eexists VNull, _, _.
    rewrite <- !app_assoc. simpl. split; [done|]. split; [done|].
    left. split; [done|]. apply reported_cons, reported_app_r. split.
    + exists (MsgAttemptFailed attempt e). left. set_solver.
    + exists alert_fetch_failed. set_solver.
  - eexists v, _, _. rewrite <- !app_assoc. split; [done|]. split; [done|].
    destruct Ho as [[-> Hr]|Ha]; [left|by right].
    split; [done|]. by apply reported_cons.
  - destruct (lt_dec attempt maxAttempts); [|lia].
    unfold_ops. simpl.
    match goal with |- context [fetchWindData _ _ ?w2] =>
      destruct (IH (attempt + 1) maxAttempts w2)
        as (v & w' & evs' & -> & Ht & Hv); [lia|]
    end.
    eexists v, w', _. split; [done|]. simpl in Ht. rewrite Ht.
    rewrite <- !app_assoc. simpl. split; [done|].
    destruct Hv as [[-> Hr]|Ha]; [left|by right].
    split; [done|].
    apply reported_cons, reported_app_r.
    by do 3 apply reported_cons.
Qed.

(** ** The presenter on a delivered payload *)

Lemma nonzero_false v : nonzero v = false ↔ is_zero v.
Proof.
  unfold nonzero, strict_neq, is_zero. rewrite negb_false_iff. split.
  - destruct v as [| | |x| |]; try done. destruct x; try done.
    + intros _. by eexists.
    + by destruct s.
    + by destruct s.
  - by intros [s ->].
Qed.

Lemma existsb_nonzero_false vs :
  existsb nonzero vs = false ↔ Forall is_zero vs.
Proof.
  induction vs as [|v vs IH]; simpl.
  - split; [constructor|done].
  - rewrite orb_false_iff, Forall_cons, IH, nonzero_false. done.
Qed.

Lemma num_mul_nan_l y : num_mul S754_nan y = S754_nan.
Proof. done. Qed.

Lemma num_mul_nan_r x : num_mul x S754_nan = S754_nan.
Proof. by destruct x. Qed.

Lemma SFeqb_nan_r x : SFeqb x S754_nan = false.
Proof. by destruct x. Qed.

Section PresenterFacts.

Variable StringToNumber : string → number.
Variable ArrayToString : heap → loc → outcome string.

Lemma loadWindData_delivered w data h1 p :
  delivered w data h1 p →
  loadWindData StringToNumber ArrayToString w =
    (presenter_outcome StringToNumber ArrayToString h1 p,
     {| heap_of := presenter_store StringToNumber ArrayToString h1 p;
        net := net w; fetched := S (fetched w);
        trace := trace w ++ arrival 1 data ++
                 presenter_events StringToNumber ArrayToString h1 p |}).
Proof.
  intros (j & Hs & Hr & Hp).
  erewrite loadWindData_presents;
    [|by eapply fetchWindData_payload|done].
  simpl. by rewrite <- app_assoc.
Qed.

Lemma degenerate_true p :
  degenerate p = true ↔ Forall is_zero (uData p) ∧ Forall is_zero (vData p).
Proof.
  unfold degenerate.
  rewrite negb_true_iff, orb_false_iff, !existsb_nonzero_false. done.
Qed.

Lemma not_degenerate p :
  Exists (λ v, ¬ is_zero v) (uData p ++ vData p) → degenerate p = false.
Proof.
  intros Hnz. destruct (degenerate p) eqn:Hdeg; [|done].
  apply degenerate_true in Hdeg as [Hzu Hzv].
  apply Exists_app in Hnz as [Hnz|Hnz];
    apply Exists_exists in Hnz as (v & Hin & Hv);
    [rewrite Forall_forall in Hzu|rewrite Forall_forall in Hzv];
    exfalso; auto.
Qed.

Lemma times_number h a b e :
  times StringToNumber ArrayToString h a b = Normal e → ∃ x, e = VNum x.
Proof.
  unfold times. destruct (ToNumber _ _ h a); [|done].
  destruct (ToNumber _ _ h b); [|done]. intros [= <-]. by eexists.
Qed.

Lemma times_undefined_l h b e :
  times StringToNumber ArrayToString h VUndef b = Normal e →
  e = VNum S754_nan.
Proof.
  unfold times. simpl. destruct (ToNumber _ _ h b); [|done].
  by intros [= <-].
Qed.

Lemma times_undefined_r h a e :
  times StringToNumber ArrayToString h a VUndef = Normal e →
  e = VNum S754_nan.
Proof.
  unfold times. destruct (ToNumber _ _ h a); [|done]. simpl.
  intros [= <-]. by rewrite num_mul_nan_r.
Qed.


End PresenterFacts.

(** A success with a body of the shape delivers a payload. *)
Lemma json_delivered w j :
  serves w j → json_wind_payload j →
  ∃ p, delivered w (reify j (heap_of w)).1 (reify j (heap_of w)).2 p.
Proof.
  intros Hs Hj. destruct (reify_wind_payload j (heap_of w) Hj) as [p Hp].
  exists p, j. split; [done|]. split; [|done].
  by destruct (reify j (heap_of w)).
Qed.

Ltac not_among :=
  let H := fresh in
  intros H; simpl in H;
  repeat (apply elem_of_cons in H as [H|H]; [discriminate H|]);
  by apply elem_of_nil in H.

(** ** The example inputs *)

Ltac example_component l :=
  eexists l, _; split; [reflexivity|]; split; [reflexivity|];
  split; [reflexivity|]; split; [reflexivity|]; split; reflexivity.

Lemma short_delivered :
  delivered (serving (success short_body)) (VRef 6) short_store short_payload.
Proof.
  exists short_body. split; [exists 200%Z; split; [reflexivity|lia]|].
  split; [reflexivity|].
  exists 6, (VRef 2), (VRef 5).
  split; [reflexivity|]. split; [reflexivity|].
  split; [example_component 2|example_component 5].
Defined.

Lemma example_serves : serves (serving (success example_body)) example_body.
Proof. exists 200%Z. split; [reflexivity|lia]. Defined.

Lemma example_wind_payload :
  wind_payload example_store (VRef 6) example_payload.
Proof.
  exists 6, (VRef 2), (VRef 5).
  split; [reflexivity|]. split; [reflexivity|]. split.
  - eexists 2, _. split; [reflexivity|]. split; [reflexivity|].
    split; [reflexivity|]. split; [reflexivity|].
    split; reflexivity.
  - eexists 5, _. split; [reflexivity|]. split; [reflexivity|].
    split; [reflexivity|]. split; [reflexivity|].
    split; reflexivity.
Defined.

Lemma example_delivered :
  delivered (serving (success example_body)) (VRef 6) example_store
    example_payload.
Proof.
  exists example_body. split; [exact example_serves|].
  split; [reflexivity|exact example_wind_payload].
Defined.

Lemma example_json_wind_payload : json_wind_payload example_body.
Proof.
  eexists _, _. split; [reflexivity|].
  split; eexists _, _, _; (split; [reflexivity|]); (split; [reflexivity|]);
    split; reflexivity.
Defined.

Ltac example_delivery body :=
  exists body; split; [exists 200%Z; split; [reflexivity|lia]|];
  split; [reflexivity|];
  exists 6, (VRef 2), (VRef 5);
  split; [reflexivity|]; split; [reflexivity|];
  split; [example_component 2|example_component 5].

Lemma calm_delivered :
  delivered (serving (success calm_body)) (VRef 6) calm_store calm_payload.
Proof. example_delivery calm_body. Defined.

Lemma sizeless_delivered :
  delivered (serving (success sizeless_body)) (VRef 6) sizeless_store
    example_payload.
Proof. example_delivery sizeless_body. Defined.

Lemma empty_delivered :
  delivered (serving (success empty_body)) (VRef 6) empty_store
    empty_payload.
Proof. example_delivery empty_body. Defined.

Lemma example_not_calm :
  Exists (λ v, ¬ is_zero v) (uData example_payload ++ vData example_payload).
Proof.
  apply Exists_cons_hd. intros [s Hs]. vm_compute in Hs. discriminate Hs.
Defined.

Lemma calm_all_zero :
  Forall is_zero (uData calm_payload) ∧ Forall is_zero (vData calm_payload).
Proof. split; repeat constructor; exists false; reflexivity. Defined.

(** * The properties of the specification *)

(** C1: when the response has a status from 200 to 299 and its JSON body is
    an array of exactly two elements, each with a truthy [header] field and
    a [data] field that is an array, [fetchWindData] returns the parsed body
    itself: the value that [response.json()] gave, in the store that parsing
    left, after one request. Nothing is copied or changed. *)
Theorem fetchWindData_returns_body w attempt maxAttempts j :
  serves w j → json_wind_payload j →
  fetchWindData attempt maxAttempts w =
    (Normal (reify j (heap_of w)).1,
     {| heap_of := (reify j (heap_of w)).2; net := net w;
        fetched := S (fetched w);
        trace := trace w ++ arrival attempt (reify j (heap_of w)).1 |}).
Proof.
  intros Hs Hj. destruct (reify_wind_payload j (heap_of w) Hj) as [p Hp].
  apply (fetchWindData_payload _ _ _ j _ _ p); [done| |done].
  by destruct (reify j (heap_of w)).
Qed.

Lemma fetchWindData_returns_body_witness :
  fetchWindData 1 3 (serving (success example_body)) =
    (Normal (VRef 6),
     {| heap_of := example_store; net := λ _, success example_body;
        fetched := 1; trace := arrival 1 (VRef 6) |}).
Proof.
  apply (fetchWindData_returns_body (serving (success example_body)) 1 3
           example_body).
  - exact example_serves.
  - exact example_json_wind_payload.
Defined.

(** C2: when every one of the next [maxAttempts] requests fails, by a
    transport failure or by a status outside 200 to 299, [fetchWindData]
    makes exactly [maxAttempts] requests ([3] by default), waits 2000 ms
    before each request after the first and at no other time, returns
    [null], and alerts the user exactly once, after the last attempt. *)
Theorem fetchWindData_retries w maxAttempts :
  1 ≤ maxAttempts →
  (∀ i, i < maxAttempts → fails (net w (fetched w + i))) →
  ∃ evs,
    fetchWindData 1 maxAttempts w =
      (Normal VNull,
       {| heap_of := heap_of w; net := net w;
          fetched := fetched w + maxAttempts; trace := trace w ++ evs |}) ∧
    evs = exhausted (maxAttempts - 1) 1 maxAttempts
            (λ i, failure (net w (fetched w + i))) ∧
    length (List.filter is_fetch evs) = maxAttempts ∧
    List.filter is_timeout evs =
      replicate (maxAttempts - 1) (SetTimeout 2000) ∧
    (∀ i u, evs !! S (S i) = Some (Fetch u) →
            evs !! i = Some (SetTimeout 2000)) ∧
    List.filter is_alert evs = [Alert alert_fetch_failed] ∧
    last evs = Some (Alert alert_fetch_failed).
Proof.
  intros Hmax Hfail. eexists. split; [|split; [reflexivity|]].
  - rewrite (fetchWindData_exhausted (maxAttempts - 1)); [|done|].
    + do 3 f_equal. lia.
    + intros i Hi. apply Hfail. lia.
  - rewrite exhausted_fetches, exhausted_timeouts, exhausted_alerts.
    repeat split; [lia| |].
    + apply exhausted_delay.
    + apply exhausted_last.
Qed.

Lemma fetchWindData_retries_witness :
  ∃ evs,
    fetchWindData 1 3 (serving Rejected) =
      (Normal VNull,
       {| heap_of := []; net := λ _, Rejected; fetched := 3;
          trace := evs |}) ∧
    evs = exhausted 2 1 3 (λ _, NetworkError) ∧
    length (List.filter is_fetch evs) = 3 ∧
    List.filter is_timeout evs = [SetTimeout 2000; SetTimeout 2000] ∧
    (∀ i u, evs !! S (S i) = Some (Fetch u) →
            evs !! i = Some (SetTimeout 2000)) ∧
    List.filter is_alert evs = [Alert alert_fetch_failed] ∧
    last evs = Some (Alert alert_fetch_failed).
Proof.
  apply (fetchWindData_retries (serving Rejected) 3).
  - lia.
  - intros i _. exact I.
Defined.

(** C3, at the body [[null, null]] with status 200: reading [header] of the
    first element throws inside the [try] block, so the attempt counts as
    failed. With the same response to every request, [fetchWindData] makes
    three requests and ends with the alert of the exhausted retries; the
    alert of the format check never fires. And when the second request
    meets the example payload, [fetchWindData] returns that payload after
    two requests, without any alert. *)
Theorem fetchWindData_null_elements :
  let malformed := success (JArray [JNull; JNull]) in
  let run := fetchWindData 1 3 (serving malformed) in
  let rerun :=
    fetchWindData 1 3 (serving_then malformed (success example_body)) in
  run.1 = Normal VNull ∧
  fetched run.2 = 3 ∧
  List.filter is_fetch (trace run.2) = [Fetch url; Fetch url; Fetch url] ∧
  trace run.2 !! 3 = Some (Console Error (MsgAttemptFailed 1 TypeError)) ∧
  List.filter is_alert (trace run.2) = [Alert alert_fetch_failed] ∧
  rerun.1 = Normal (VRef 7) ∧
  fetched rerun.2 = 2 ∧
  List.filter is_alert (trace rerun.2) = [].
Proof. repeat split; vm_compute; reflexivity. Qed.

Section Presenter_properties.

Variable StringToNumber : string → number.
Variable ArrayToString : heap → loc → outcome string.

(** C4: when a payload of the accepted shape arrives, [nx * ny] has the
    value [e] for the [nx] and [ny] of the U header, and the length of the
    U data or of the V data differs from [e], [loadWindData] logs the two
    lengths and the product as an error, alerts the user and returns; the
    velocity layer is never created and the store stays as parsing left
    it. *)
Theorem loadWindData_length_mismatch w data h1 p e :
  delivered w data h1 p →
  expected StringToNumber ArrayToString h1 p = Normal e →
  strict_neq (length_of (uData p)) e = true ∨
  strict_neq (length_of (vData p)) e = true →
  ∃ evs,
    loadWindData StringToNumber ArrayToString w =
      (Normal tt,
       {| heap_of := h1; net := net w; fetched := S (fetched w);
          trace := trace w ++ evs |}) ∧
    evs = arrival 1 data ++ inspected p ++
          mismatch_events (length_of (uData p)) (length_of (vData p)) e ∧
    List.filter is_render evs = [].
Proof.
  intros Hd He Hm. rewrite (loadWindData_delivered _ _ _ _ _ _ Hd).
  assert (mismatch p e = true) as Hmis.
  { unfold mismatch. apply orb_true_iff. done. }
  unfold presenter_outcome, presenter_store, presenter_events.
  rewrite He, Hmis. simpl.
  eexists. split; [reflexivity|]. split; reflexivity.
Qed.

(** C5: when a payload of the accepted shape arrives whose two data arrays
    have the length [nx * ny], then: if every sample of both arrays is zero,
    [loadWindData] logs the warning, alerts that no meaningful data is
    available and returns without creating the velocity layer; and if some
    sample of either array is not zero, neither that warning nor that alert
    occurs and the layer is created. *)
Theorem loadWindData_zero_check w data h1 p e :
  delivered w data h1 p →
  expected StringToNumber ArrayToString h1 p = Normal e →
  strict_eq (length_of (uData p)) e = true →
  strict_eq (length_of (vData p)) e = true →
  ∃ w' evs,
    loadWindData StringToNumber ArrayToString w = (Normal tt, w') ∧
    trace w' = trace w ++ evs ∧
    (Forall is_zero (uData p) ∧ Forall is_zero (vData p) →
     evs = arrival 1 data ++ inspected p ++ no_data_events ∧
     List.filter is_render evs = [] ∧ heap_of w' = h1) ∧
    (Exists (λ v, ¬ is_zero v) (uData p ++ vData p) →
     (Console Warn MsgNoWindData ∉ evs) ∧ (Alert alert_no_data ∉ evs) ∧
     ∃ windData, evs = arrival 1 data ++ inspected p ++
                       render_events windData).
Proof.
  intros Hd He Hu Hv. rewrite (loadWindData_delivered _ _ _ _ _ _ Hd).
  assert (mismatch p e = false) as Hmis.
  { unfold mismatch, strict_neq. by rewrite Hu, Hv. }
  unfold presenter_outcome, presenter_store, presenter_events.
  rewrite He, Hmis. simpl.
  eexists _, _. split; [reflexivity|]. split; [reflexivity|]. split.
  - intros Hz. apply degenerate_true in Hz. rewrite Hz. done.
  - intros Hnz. rewrite (not_degenerate _ Hnz).
    split; [not_among|]. split; [not_among|]. by eexists.
Qed.

(** C6: when a payload of the accepted shape arrives whose two data arrays
    have the length [nx * ny] and in which some sample is not zero,
    [loadWindData] creates the velocity layer exactly once, with an array of
    two components: the header of the first has [parameterNumber] 2, the
    header of the second has [parameterNumber] 3, and their data fields are
    the data arrays of the payload themselves. *)
Theorem loadWindData_renders w data h1 p e :
  delivered w data h1 p →
  expected StringToNumber ArrayToString h1 p = Normal e →
  strict_eq (length_of (uData p)) e = true →
  strict_eq (length_of (vData p)) e = true →
  Exists (λ v, ¬ is_zero v) (uData p ++ vData p) →
  ∃ w' evs windData,
    loadWindData StringToNumber ArrayToString w = (Normal tt, w') ∧
    trace w' = trace w ++ evs ∧
    evs = arrival 1 data ++ inspected p ++ render_events windData ∧
    List.filter is_render evs = [VelocityLayer windData] ∧
    tagged_payload (heap_of w') windData p.
Proof.
  intros Hd He Hu Hv Hnz. rewrite (loadWindData_delivered _ _ _ _ _ _ Hd).
  assert (mismatch p e = false) as Hmis.
  { unfold mismatch, strict_neq. by rewrite Hu, Hv. }
  unfold presenter_outcome, presenter_store, presenter_events.
  rewrite He, Hmis, (not_degenerate _ Hnz). simpl.
  eexists _, _, _. split; [reflexivity|]. split; [reflexivity|].
  split; [reflexivity|]. split; [reflexivity|]. simpl.
  destruct Hd as (j & _ & _ & l & cu & cv & _ & _ &
                  (? & ? & _ & _ & _ & _ & _ & Hua) &
                  (? & ? & _ & _ & _ & _ & _ & Hva)).
  by apply tagged_payload_objects.
Qed.

(** C7: the literal of [windData] builds two new objects as headers. They
    carry [parameterNumber] 2 and 3, whatever the headers of the payload
    had there, and apart from [parameterNumber] their properties are
    exactly the fields of the headers of the payload, each with its value:
    [nx], [ny] and every other property of a header that is an object. The
    [data] fields of the two new components are the data values that were
    passed in; and every object that was in the store before, so every
    object of the payload, is still there unchanged. *)
Theorem windData_literal_frame w uHeader uData vHeader vData :
  in_store (heap_of w) vHeader →
  ∃ l w' lu lv lhu lhv mu mv,
    windData_literal uHeader uData vHeader vData w = (Normal (VRef l), w') ∧
    heap_of w' !! l = Some (OArr [VRef lu; VRef lv]) ∧
    heap_of w' !! lu = Some (component_obj (VRef lhu) uData) ∧
    heap_of w' !! lv = Some (component_obj (VRef lhv) vData) ∧
    heap_of w' !! lhu = Some (OObj mu) ∧
    heap_of w' !! lhv = Some (OObj mv) ∧
    heap_of w !! lhu = None ∧ heap_of w !! lhv = None ∧
    mu !! "parameterNumber" = Some (VNum (num_of_Z 2)) ∧
    mv !! "parameterNumber" = Some (VNum (num_of_Z 3)) ∧
    (∀ k x, k ≠ "parameterNumber" →
            mu !! k = Some x ↔ has_field (heap_of w) uHeader k x) ∧
    (∀ k x, k ≠ "parameterNumber" →
            mv !! k = Some x ↔ has_field (heap_of w) vHeader k x) ∧
    (∀ l0 o, heap_of w !! l0 = Some o → heap_of w' !! l0 = Some o) ∧
    trace w' = trace w.
Proof.
  intros Hv. rewrite windData_literal_run.
  destruct (windData_objects_lookup (heap_of w) uHeader uData vHeader vData)
    as (H0 & H1 & H2 & H3 & H4).
  eexists _, _, _, _, _, _, _, _. split; [reflexivity|]. simpl.
  split; [exact H4|]. split; [exact H1|]. split; [exact H3|].
  split; [exact H0|]. split; [exact H2|].
  split; [apply lookup_ge_None_2; lia|].
  split; [apply lookup_ge_None_2; lia|].
  split; [apply lookup_insert_eq|]. split; [apply lookup_insert_eq|].
  split; [|split; [|split; [|done]]].
  - intros k x Hk. rewrite lookup_insert_ne by done.
    apply own_properties_field.
  - intros k x Hk. rewrite lookup_insert_ne by done.
    rewrite (own_properties_app _ [_; _]) by done.
    apply own_properties_field.
  - intros l0 o Ho. by apply lookup_app_l_Some.
Qed.

(** C8, amended: whatever the network answers (any status, any body, a body
    that is not JSON or whose elements are not objects, or no answer at
    all), [fetchWindData] does not throw: it returns [null], after an error
    on the console and an alert, or a payload that passed the format check.
    [loadWindData] throws in one case only, when the payload passed the
    format check and the [nx] or the [ny] of its U header cannot be
    converted to a number; in every other case it returns, after an error
    or a warning on the console and an alert, or after creating the
    velocity layer. *)
Theorem failures_are_surfaced :
  (∀ attempt maxAttempts w,
     ∃ v w' evs,
       fetchWindData attempt maxAttempts w = (Normal v, w') ∧
       trace w' = trace w ++ evs ∧
       ((v = VNull ∧ reported evs) ∨ (∃ p, wind_payload (heap_of w') v p))) ∧
  (∀ w,
     ∃ o w' evs,
       loadWindData StringToNumber ArrayToString w = (o, w') ∧
       trace w' = trace w ++ evs ∧
       match o with
       | Normal _ => reported evs ∨ (∃ windData, VelocityLayer windData ∈ evs)
       | Throw err =>
           ∃ data w1 p,
             fetchWindData 1 3 w = (Normal data, w1) ∧
             wind_payload (heap_of w1) data p ∧
             expected StringToNumber ArrayToString (heap_of w1) p = Throw err
       end).
Proof.
  split.
  - intros attempt maxAttempts w.
    by apply (fetchWindData_returns (maxAttempts - attempt)).
  - intros w.
    destruct (fetchWindData_returns 2 1 3 w) as (v & w1 & evs & Hf & Ht & Hv);
      [done|].
    destruct Hv as [[-> Hr]|[p Ha]].
    + exists (Normal tt), w1, evs. unfold loadWindData.
      rewrite (bind_normal _ _ _ _ _ Hf). simpl. auto.
    + rewrite (loadWindData_presents _ _ _ _ _ _ Hf Ha).
      eexists _, _, _. split; [reflexivity|]. simpl.
      rewrite Ht, <- app_assoc. split; [reflexivity|].
      unfold presenter_outcome, presenter_events.
      destruct (expected _ _ _ _) as [e|err] eqn:He.
      2: { by exists v, w1, p. }
      destruct (mismatch _ _); [|destruct (degenerate _)].
      * left. apply reported_app_r, reported_app_r. split.
        -- eexists. left. apply list_elem_of_here.
        -- eexists. apply list_elem_of_further, list_elem_of_here.
      * left. apply reported_app_r, reported_app_r. split.
        -- eexists. right. apply list_elem_of_here.
        -- eexists. apply list_elem_of_further, list_elem_of_here.
      * right. eexists. rewrite !elem_of_app. right. right.
        apply list_elem_of_here.
Qed.

(** C9, amended: for a payload of the accepted shape for which [nx * ny]
    can be evaluated, if the U header has no [nx] or no [ny], or [nx * ny]
    is not a number for another reason, [loadWindData] takes the
    length-mismatch branch and the velocity layer is not created; and for
    every payload of the accepted shape, either the layer is not created,
    or [nx * ny] is a number that equals the length of the U data and the
    length of the V data. *)
Theorem loadWindData_needs_grid_size w data h1 p :
  delivered w data h1 p →
  ∃ o w' evs,
    loadWindData StringToNumber ArrayToString w = (o, w') ∧
    trace w' = trace w ++ evs ∧
    (∀ e,
       expected StringToNumber ArrayToString h1 p = Normal e →
       field h1 (uHeader p) Nnx = VUndef ∨
       field h1 (uHeader p) Nny = VUndef ∨ e = VNum S754_nan →
       o = Normal tt ∧
       evs = arrival 1 data ++ inspected p ++
             mismatch_events (length_of (uData p)) (length_of (vData p))
               (VNum S754_nan) ∧
       List.filter is_render evs = []) ∧
    (List.filter is_render evs = [] ∨
     ∃ x, expected StringToNumber ArrayToString h1 p = Normal (VNum x) ∧
          x ≠ S754_nan ∧
          SFeqb (num_of_nat (length (uData p))) x = true ∧
          SFeqb (num_of_nat (length (vData p))) x = true).
Proof.
  intros Hd. rewrite (loadWindData_delivered _ _ _ _ _ _ Hd).
  eexists _, _, _. split; [reflexivity|]. split; [reflexivity|].
  unfold presenter_outcome, presenter_events. split.
  - intros e He Hnan. rewrite He.
    assert (e = VNum S754_nan) as ->.
    { destruct Hnan as [Hx|[Hy|Hnan]]; [| |done]; unfold expected in He.
      - rewrite Hx in He. by apply times_undefined_l in He.
      - rewrite Hy in He. by apply times_undefined_r in He. }
    unfold mismatch, strict_neq, length_of. simpl.
    rewrite SFeqb_nan_r. simpl. split; [done|]. split; reflexivity.
  - destruct (expected _ _ _ _) as [e|err] eqn:He; [|by left].
    pose proof (times_number _ _ _ _ _ _ He) as [x ->].
    unfold mismatch, strict_neq, length_of. simpl.
    destruct (SFeqb (num_of_nat (length (uData p))) x) eqn:Eu;
      simpl; [|by left].
    destruct (SFeqb (num_of_nat (length (vData p))) x) eqn:Ev;
      simpl; [|by left].
    right. exists x. split; [done|]. split; [|done].
    intros Hx. by rewrite Hx, SFeqb_nan_r in Eu.
Qed.

(** C10: for a payload of the accepted shape whose U header gives
    [nx * ny] equal to zero and whose two data arrays are empty, the length
    check passes, and [loadWindData] logs the warning, alerts that no
    meaningful data is available and returns without creating the velocity
    layer. *)
Theorem loadWindData_empty_grid w data h1 p e :
  delivered w data h1 p →
  uData p = [] → vData p = [] →
  expected StringToNumber ArrayToString h1 p = Normal e → is_zero e →
  mismatch p e = false ∧
  ∃ evs,
    loadWindData StringToNumber ArrayToString w =
      (Normal tt,
       {| heap_of := h1; net := net w; fetched := S (fetched w);
          trace := trace w ++ evs |}) ∧
    evs = arrival 1 data ++ inspected p ++ no_data_events ∧
    List.filter is_render evs = [].
Proof.
  intros Hd Hu Hv He [s ->].
  assert (mismatch p (VNum (S754_zero s)) = false) as Hmis.
  { unfold mismatch, strict_neq, length_of. rewrite Hu, Hv. done. }
  split; [done|]. rewrite (loadWindData_delivered _ _ _ _ _ _ Hd).
  unfold presenter_outcome, presenter_store, presenter_events, degenerate.
  rewrite He, Hmis, Hu, Hv. simpl.
  eexists. split; [reflexivity|]. split; reflexivity.
Qed.

End Presenter_properties.

(** ** The properties at the example inputs *)

Lemma loadWindData_length_mismatch_witness :
  ∃ evs,
    loadWindData example_StringToNumber example_ArrayToString
      (serving (success short_body)) =
      (Normal tt,
       {| heap_of := short_store; net := λ _, success short_body;
          fetched := 1; trace := evs |}) ∧
    evs = arrival 1 (VRef 6) ++ inspected short_payload ++
          mismatch_events (VNum (num_of_Z 3)) (VNum (num_of_Z 4))
            (VNum (num_of_Z 4)) ∧
    List.filter is_render evs = [].
Proof.
  apply (loadWindData_length_mismatch example_StringToNumber
           example_ArrayToString (serving (success short_body)) (VRef 6)
           short_store short_payload (VNum (num_of_Z 4))).
  - exact short_delivered.
  - reflexivity.
  - left. reflexivity.
Defined.

Lemma loadWindData_zero_check_witness :
  (∃ w' evs,
     loadWindData example_StringToNumber example_ArrayToString
       (serving (success calm_body)) = (Normal tt, w') ∧
     trace w' = evs ∧
     evs = arrival 1 (VRef 6) ++ inspected calm_payload ++ no_data_events ∧
     List.filter is_render evs = [] ∧ heap_of w' = calm_store) ∧
  (∃ w' evs,
     loadWindData example_StringToNumber example_ArrayToString
       (serving (success example_body)) = (Normal tt, w') ∧
     trace w' = evs ∧
     (Console Warn MsgNoWindData ∉ evs) ∧ (Alert alert_no_data ∉ evs) ∧
     ∃ windData, evs = arrival 1 (VRef 6) ++ inspected example_payload ++
                       render_events windData).
Proof.
  split.
  - destruct (loadWindData_zero_check example_StringToNumber
                example_ArrayToString (serving (success calm_body)) (VRef 6)
                calm_store calm_payload (VNum (num_of_Z 4)) calm_delivered)
      as (w' & evs & Hrun & Htrace & Hzero & _);
      [reflexivity|reflexivity|reflexivity|].
    exists w', evs. split; [exact Hrun|]. split; [exact Htrace|].
    apply Hzero. exact calm_all_zero.
  - destruct (loadWindData_zero_check example_StringToNumber
                example_ArrayToString (serving (success example_body))
                (VRef 6) example_store example_payload (VNum (num_of_Z 4))
                example_delivered)
      as (w' & evs & Hrun & Htrace & _ & Hwind);
      [reflexivity|reflexivity|reflexivity|].
    exists w', evs. split; [exact Hrun|]. split; [exact Htrace|].
    apply Hwind. exact example_not_calm.
Defined.

Lemma loadWindData_renders_witness :
  ∃ w' evs windData,
    loadWindData example_StringToNumber example_ArrayToString
      (serving (success example_body)) = (Normal tt, w') ∧
    trace w' = evs ∧
    evs = arrival 1 (VRef 6) ++ inspected example_payload ++
          render_events windData ∧
    List.filter is_render evs = [VelocityLayer windData] ∧
    tagged_payload (heap_of w') windData example_payload.
Proof.
  apply (loadWindData_renders example_StringToNumber example_ArrayToString
           (serving (success example_body)) (VRef 6) example_store
           example_payload (VNum (num_of_Z 4))).
  - exact example_delivered.
  - reflexivity.
  - reflexivity.
  - reflexivity.
  - exact example_not_calm.
Defined.

Lemma windData_literal_frame_witness :
  ∃ l w' lu lv lhu lhv mu mv,
    windData_literal (VRef 0) (VRef 1) (VRef 3) (VRef 4)
      {| heap_of := labelled_store; net := λ _, Rejected; fetched := 1;
         trace := [] |} = (Normal (VRef l), w') ∧
    heap_of w' !! l = Some (OArr [VRef lu; VRef lv]) ∧
    heap_of w' !! lu = Some (component_obj (VRef lhu) (VRef 1)) ∧
    heap_of w' !! lv = Some (component_obj (VRef lhv) (VRef 4)) ∧
    heap_of w' !! lhu = Some (OObj mu) ∧
    heap_of w' !! lhv = Some (OObj mv) ∧
    labelled_store !! lhu = None ∧ labelled_store !! lhv = None ∧
    has_field labelled_store (VRef 0) "parameterNumber"
      (VNum (num_of_Z 99)) ∧
    has_field labelled_store (VRef 3) "parameterNumber"
      (VNum (num_of_Z 98)) ∧
    mu !! "parameterNumber" = Some (VNum (num_of_Z 2)) ∧
    mv !! "parameterNumber" = Some (VNum (num_of_Z 3)) ∧
    mu !! "nx" = Some (VNum (num_of_Z 2)) ∧
    mu !! "ny" = Some (VNum (num_of_Z 2)) ∧
    mu !! "refTime" = Some (VStr "2024-05-01T00:00Z") ∧
    mv !! "nx" = Some (VNum (num_of_Z 2)) ∧
    mv !! "ny" = Some (VNum (num_of_Z 2)) ∧
    mv !! "refTime" = Some (VStr "2024-05-01T00:00Z") ∧
    (∀ l0 o, labelled_store !! l0 = Some o → heap_of w' !! l0 = Some o) ∧
    trace w' = [].
Proof.
  destruct (windData_literal_frame
              {| heap_of := labelled_store; net := λ _, Rejected;
                 fetched := 1; trace := [] |}
              (VRef 0) (VRef 1) (VRef 3) (VRef 4))
    as (l & w' & lu & lv & lhu & lhv & mu & mv & Hrun & Hl & Hlu & Hlv &
        Hhu & Hhv & Hnu & Hnv & Hpu & Hpv & Hu & Hv & Hframe & Htrace).
  { eexists. reflexivity. }
  exists l, w', lu, lv, lhu, lhv, mu, mv.
  do 8 (split; [assumption|]).
  split; [reflexivity|]. split; [reflexivity|].
  do 2 (split; [assumption|]).
  do 3 (split; [apply Hu; [discriminate|reflexivity]|]).
  do 3 (split; [apply Hv; [discriminate|reflexivity]|]).
  split; assumption.
Defined.

(** C8, as stated, fails for the payload whose [nx] is an object with an
    own [toString] property: the payload passes the format check, the
    product [nx * ny] throws, and [loadWindData] throws with it, without
    an error on the console or an alert. *)
Lemma loadWindData_throws :
  let run := loadWindData example_StringToNumber example_ArrayToString
               (serving (success stubborn_body)) in
  run.1 = Throw TypeError ∧
  List.filter is_alert (trace run.2) = [] ∧
  ¬ ∃ w', run = (Normal tt, w').
Proof.
  split; [vm_compute; reflexivity|]. split; [vm_compute; reflexivity|].
  intros [w' Hrun]. apply (f_equal fst) in Hrun. vm_compute in Hrun.
  discriminate Hrun.
Qed.

Lemma failures_are_surfaced_witness :
  ∃ o w' evs,
    loadWindData example_StringToNumber example_ArrayToString
      (serving (success example_body)) = (o, w') ∧
    trace w' = evs ∧
    match o with
    | Normal _ => reported evs ∨ (∃ windData, VelocityLayer windData ∈ evs)
    | Throw err =>
        ∃ data w1 p,
          fetchWindData 1 3 (serving (success example_body)) =
            (Normal data, w1) ∧
          wind_payload (heap_of w1) data p ∧
          expected example_StringToNumber example_ArrayToString
            (heap_of w1) p = Throw err
    end.
Proof.
  exact (proj2 (failures_are_surfaced example_StringToNumber
                  example_ArrayToString)
           (serving (success example_body))).
Defined.

Lemma stubborn_sizeless_delivered :
  delivered (serving (success stubborn_sizeless_body)) (VRef 7)
    stubborn_sizeless_store stubborn_sizeless_payload.
Proof.
  exists stubborn_sizeless_body.
  split; [exists 200%Z; split; [reflexivity|lia]|].
  split; [reflexivity|].
  exists 7, (VRef 3), (VRef 6).
  split; [reflexivity|]. split; [reflexivity|].
  split; [example_component 3|example_component 6].
Defined.

(** C9, as stated, fails for the payload whose U header has no [nx] and an
    [ny] that is an object with an own [toString] property: the payload
    passes the format check and [nx] is missing, but [loadWindData] throws
    at [nx * ny] and so does not take the length-mismatch branch: there is
    no error on the console and no alert. *)
Lemma loadWindData_sizeless_throws :
  let run := loadWindData example_StringToNumber example_ArrayToString
               (serving (success stubborn_sizeless_body)) in
  delivered (serving (success stubborn_sizeless_body)) (VRef 7)
    stubborn_sizeless_store stubborn_sizeless_payload ∧
  field stubborn_sizeless_store (uHeader stubborn_sizeless_payload) Nnx
    = VUndef ∧
  run.1 = Throw TypeError ∧
  trace run.2 =
    arrival 1 (VRef 7) ++ inspected stubborn_sizeless_payload.
Proof.
  split; [exact stubborn_sizeless_delivered|].
  split; [reflexivity|]. split; vm_compute; reflexivity.
Qed.

Lemma loadWindData_needs_grid_size_witness :
  ∃ o w' evs,
    loadWindData example_StringToNumber example_ArrayToString
      (serving (success sizeless_body)) = (o, w') ∧
    trace w' = evs ∧
    o = Normal tt ∧
    evs = arrival 1 (VRef 6) ++ inspected example_payload ++
          mismatch_events (VNum (num_of_Z 4)) (VNum (num_of_Z 4))
            (VNum S754_nan) ∧
    List.filter is_render evs = [].
Proof.
  destruct (loadWindData_needs_grid_size example_StringToNumber
              example_ArrayToString (serving (success sizeless_body))
              (VRef 6) sizeless_store example_payload sizeless_delivered)
    as (o & w' & evs & Hrun & Htrace & Hnan & _).
  exists o, w', evs. split; [exact Hrun|]. split; [exact Htrace|].
  apply (Hnan (VNum S754_nan)); [reflexivity|]. left. reflexivity.
Defined.

Lemma loadWindData_empty_grid_witness :
  mismatch empty_payload (VNum (S754_zero false)) = false ∧
  ∃ evs,
    loadWindData example_StringToNumber example_ArrayToString
      (serving (success empty_body)) =
      (Normal tt,
       {| heap_of := empty_store; net := λ _, success empty_body;
          fetched := 1; trace := evs |}) ∧
    evs = arrival 1 (VRef 6) ++ inspected empty_payload ++ no_data_events ∧
    List.filter is_render evs = [].
Proof.
  apply (loadWindData_empty_grid example_StringToNumber
           example_ArrayToString (serving (success empty_body)) (VRef 6)
           empty_store empty_payload (VNum (S754_zero false))).
  - exact empty_delivered.
  - reflexivity.
  - reflexivity.
  - reflexivity.
  - exists false. reflexivity.
Defined.

(** * Further properties of the pipeline *)

(** ** One attempt *)

Lemma attempt_body_refused w e :
  refused (net w (fetched w)) = Some e →
  attempt_body w = (Throw e, logged (answered w (heap_of w)) [Fetch url]).
Proof.
  unfold refused, attempt_body, fetch, bind.
  destruct (net w (fetched w)) as [|r]; [by intros [= <-]|].
  destruct (ok r); simpl.
  - unfold response_json. destruct (body r); [done|]. by intros [= <-].
  - by intros [= <-].
Qed.

Lemma attempt_body_served w j :
  serves w j →
  let data := (reify j (heap_of w)).1 in
  let w1 := logged (answered w (reify j (heap_of w)).2)
              [Fetch url; Console Log (MsgApiResponse data)] in
  attempt_body w =
    match (invalid_format data w1).1 with
    | Normal true =>
        (Normal VNull,
         logged w1 [Console Error MsgUnexpectedFormat;
                    Alert alert_invalid_format])
    | Normal false => (Normal data, w1)
    | Throw e => (Throw e, w1)
    end.
Proof.
  intros (st & Hnet & Hst). simpl. unfold attempt_body.
  erewrite bind_normal; last first.
  { unfold fetch. rewrite Hnet. reflexivity. }
  replace (ok _) with true by (symmetry; by apply ok_status).
  simpl. unfold response_json. simpl. unfold_ops. simpl.
  destruct (reify j (heap_of w)) as [data h1] eqn:Hj. simpl.
  unfold logged, answered. simpl. rewrite <- !app_assoc. simpl.
  match goal with |- context [invalid_format data ?w3] =>
    destruct (invalid_format data w3) as [o w4] eqn:Hinv;
    pose proof (invalid_format_world _ _ _ _ Hinv) as ->
  end.
  simpl. destruct o as [[|]|e]; simpl; [|done..].
  by rewrite <- !app_assoc.
Qed.

(** ** What makes the format check throw *)

Lemma invalid_format_array w l cu cv :
  heap_of w !! l = Some (OArr [cu; cv]) →
  invalid_format (VRef l) w =
    or_else (negated (get_field cu Nheader))
      (or_else (negated (get_field cv Nheader))
         (or_else (x <- get_field cu Ndata ;; b <- isArray x ;; ret (negb b))
                  (x <- get_field cv Ndata ;; b <- isArray x ;;
                   ret (negb b)))) w.
Proof.
  intros Hl. unfold invalid_format. unfold_ops. look.
  destruct (get (heap_of w) cu Nheader) as [hu|]; simpl; [|done].
  destruct (ToBoolean hu); simpl; [|done]. look.
  destruct (get (heap_of w) cv Nheader) as [hv|]; simpl; [|done].
  destruct (ToBoolean hv); simpl; [|done]. look.
  destruct (get (heap_of w) cu Ndata) as [du|]; simpl; [|done].
  destruct (is_array (heap_of w) du); simpl; [|done]. look. done.
Qed.

Lemma get_throws h v n e :
  get h v n = Throw e → nullish v ∧ e = TypeError.
Proof.
  unfold nullish. destruct v; simpl; intros [=]; auto.
Qed.

Lemma get_nullish h v n : nullish v → get h v n = Throw TypeError.
Proof. by intros [-> | ->]. Qed.

Lemma headed_get h c : headed h c ↔
  ∃ hd, get h c Nheader = Normal hd ∧ ToBoolean hd = true.
Proof.
  split.
  - intros (l & m & hd & -> & Hl & Hm & Ht). exists hd. simpl.
    by rewrite Hl, Hm.
  - intros (hd & Hget & Ht).
    destruct (truthy_header _ _ _ Hget Ht) as (l & m & -> & Hl & Hm).
    by exists l, m, hd.
Qed.

Lemma invalid_format_throws_exact data w e :
  (invalid_format data w).1 = Throw e →
  null_element (heap_of w) data ∧ e = TypeError.
Proof.
  intros H.
  destruct (invalid_format data w) as [o w'] eqn:Hrun. simpl in H. subst o.
  destruct (invalid_format_throws _ _ _ _ Hrun)
    as (l & cu & cv & -> & Hl & _).
  rewrite (invalid_format_array _ _ _ _ Hl) in Hrun.
  revert Hrun. unfold_ops. simpl.
  destruct (get (heap_of w) cu Nheader) as [hu|eu] eqn:Hu; simpl.
  2: { intros [= <- <-]. destruct (get_throws _ _ _ _ Hu) as [Hn ->].
       split; [|done]. exists l, cu, cv. auto. }
  destruct (ToBoolean hu) eqn:Htu; simpl; [|done].
  assert (headed (heap_of w) cu) as Hhu by (apply headed_get; eauto).
  destruct (get (heap_of w) cv Nheader) as [hv|ev] eqn:Hv; simpl.
  2: { intros [= <- <-]. destruct (get_throws _ _ _ _ Hv) as [Hn ->].
       split; [|done]. exists l, cu, cv. auto. }
  destruct (ToBoolean hv) eqn:Htv; simpl; [|done].
  destruct (get (heap_of w) cu Ndata) as [du|eu] eqn:Hdu; simpl.
  2: { destruct (get_throws _ _ _ _ Hdu) as [[-> | ->] _]; discriminate Hu. }
  destruct (is_array (heap_of w) du); simpl; [|done].
  destruct (get (heap_of w) cv Ndata) as [dv|ev] eqn:Hdv; simpl.
  2: { destruct (get_throws _ _ _ _ Hdv) as [[-> | ->] _]; discriminate Hv. }
  by destruct (is_array (heap_of w) dv).
Qed.

Lemma invalid_format_null_element data w :
  null_element (heap_of w) data →
  invalid_format data w = (Throw TypeError, w).
Proof.
  intros (l & cu & cv & -> & Hl & Hcases).
  rewrite (invalid_format_array _ _ _ _ Hl). unfold_ops. simpl.
  destruct Hcases as [Hn|[Hh Hn]].
  - by rewrite (get_nullish _ _ _ Hn).
  - apply headed_get in Hh as (hd & -> & ->). simpl.
    by rewrite (get_nullish _ _ _ Hn).
Qed.

(** ** The same shapes on the JSON document *)

Lemma reify_nullish j h : nullish (reify j h).1 ↔ j = JNull.
Proof.
  split; [|intros ->; by left].
  intros Hn. destruct j as [|b|x|s|xs|ms]; [done|exfalso..].
  all: match type of Hn with context [reify ?j ?h0] =>
         destruct (reify_not_null j h0) as [H1 H2]; [done|]
       end.
  all: destruct Hn as [Hn|Hn]; [exact (H1 Hn)|exact (H2 Hn)].
Qed.

Lemma reify_pair j h l cu cv :
  (reify j h).1 = VRef l → (reify j h).2 !! l = Some (OArr [cu; cv]) →
  ∃ a b, j = JArray [a; b] ∧
         cu = (reify a h).1 ∧ cv = (reify b (reify a h).2).1.
Proof.
  intros Hj Hl.
  destruct (reify_ref j h l Hj) as [(xs & -> & Hxs)|(ms & -> & Hms)].
  - unfold loc, heap in *.
    assert (Some (OArr [cu; cv]) = Some (OArr (elements reify xs h).1))
      as [= Hvs] by (rewrite <- Hl; exact Hxs).
    symmetry in Hvs.
    destruct xs as [|a [|b [|c xs]]]; simpl in Hvs.
    + discriminate Hvs.
    + destruct (reify a h). discriminate Hvs.
    + exists a, b. split; [done|].
      by apply (reify_two_elements a b h l).
    + destruct (reify a h) as [? h2].
      destruct (reify b h2) as [? h3]. destruct (reify c h3) as [? h4].
      destruct (elements reify xs h4). discriminate Hvs.
  - unfold loc, heap in *.
    assert (Some (OArr [cu; cv]) = Some (OObj (members reify ms ∅ h).1))
      as [=] by (rewrite <- Hl; exact Hms).
Qed.

Lemma reify_headed c hc h' :
  (reify c hc).2 `prefix_of` h' →
  headed h' (reify c hc).1 ↔ json_headed c.
Proof.
  intros Hpre. split.
  - intros (l & m & hd & Hc & Hl & Hh & Ht).
    destruct (reify_ref c hc l Hc) as [(xs & -> & Hxs)|(ms & -> & Hms)].
    { pose proof (prefix_lookup_Some _ _ _ _ Hxs Hpre) as Hl'.
      unfold loc, heap in *. congruence. }
    pose proof (prefix_lookup_Some _ _ _ _ Hms Hpre) as Hl'.
    assert (m = (members reify ms ∅ hc).1) as ->
      by (unfold loc, heap in *; congruence).
    pose proof (members_lookup "header" ms ∅ hc) as Hmh.
    destruct (member "header" ms) as [x|] eqn:Hx;
      [|by rewrite Hh, lookup_empty in Hmh].
    destruct Hmh as (hx & Hmh & _).
    rewrite Hh in Hmh. injection Hmh as ->.
    exists ms, x. by rewrite reify_truthy in Ht.
  - intros (ms & hd & -> & Hh & Ht).
    pose proof (members_lookup "header" ms ∅ hc) as Hmh. rewrite Hh in Hmh.
    revert Hpre. simpl.
    destruct (members reify ms ∅ hc) as [m h1]. cbn [fst snd] in *.
    intros Hpre. destruct Hmh as (hx & Hmh & _).
    exists (length h1), m, (reify hd hx).1. split; [done|].
    split.
    { eapply prefix_lookup_Some; [|exact Hpre]. by apply list_lookup_middle. }
    split; [done|]. by rewrite reify_truthy.
Qed.

Lemma reify_null_element j h :
  null_element (reify j h).2 (reify j h).1 ↔ json_null_element j.
Proof.
  split.
  - intros (l & cu & cv & Hd & Hl & Hcases).
    destruct (reify_pair j h l cu cv Hd Hl) as (a & b & -> & -> & ->).
    destruct Hcases as [Hn|[Hh Hn]].
    + apply reify_nullish in Hn as ->. left. by exists b.
    + apply reify_nullish in Hn as ->. right. exists a. split; [done|].
      apply (reify_headed a h (reify (JArray [a; JNull]) h).2); [|done].
      simpl. destruct (reify a h) as [va ha]. simpl.
      by apply prefix_app_r.
  - intros [(b & ->)|(a & -> & Hh)]; simpl.
    + destruct (reify b h) as [vb hb]. simpl.
      exists (length hb), VNull, vb. split; [done|].
      split; [by apply list_lookup_middle|]. left. by left.
    + pose proof (reify_headed a h ((reify a h).2 ++ [OArr [(reify a h).1;
                                                              VNull]])) as Hva.
      destruct (reify a h) as [va ha]. simpl in *.
      exists (length ha), va, VNull. split; [done|].
      split; [by apply list_lookup_middle|]. right.
      split; [|by left]. apply Hva; [by apply prefix_app_r|done].
Qed.

(** ** Every run of [fetchWindData], in numbers *)

Lemma attempt_body_summary w :
  ∃ o h evs,
    attempt_body w =
      (o, {| heap_of := h; net := net w; fetched := S (fetched w);
             trace := trace w ++ evs |}) ∧
    heap_of w `prefix_of` h ∧
    match o with
    | Throw _ =>
        evs = [Fetch url] ∨
        ∃ data, evs = [Fetch url; Console Log (MsgApiResponse data)]
    | Normal v =>
        (v = VNull ∧
         ∃ data, evs = [Fetch url; Console Log (MsgApiResponse data);
                        Console Error MsgUnexpectedFormat;
                        Alert alert_invalid_format]) ∨
        ((∃ p, wind_payload h v p) ∧
         evs = [Fetch url; Console Log (MsgApiResponse v)])
    end.
Proof.
  unfold attempt_body, fetch, bind.
  destruct (net w (fetched w)) as [|r]; [eexists _, _, _; eauto|].
  destruct (ok r); simpl; [|eexists _, _, _; eauto].
  unfold response_json. destruct (body r) as [j|]; [|eexists _, _, _; eauto].
  unfold_ops. simpl. pose proof (reify_prefix j (heap_of w)) as Hpre.
  destruct (reify j (heap_of w)) as [v h1]. simpl in *.
  match goal with |- context [invalid_format v ?w2] =>
    destruct (invalid_format v w2) as [o w3] eqn:Hinv;
    pose proof (invalid_format_world _ _ _ _ Hinv) as ->
  end.
  destruct o as [[|]|e]; simpl; eexists _, _, _; rewrite <- !app_assoc;
    simpl; (split; [reflexivity|]); (split; [exact Hpre|]).
  - left. eauto.
  - right. split; [|done]. by apply invalid_format_wind_payload in Hinv.
  - right. eauto.
Qed.

(** The events of a last attempt hold no wait, and no request beyond
    their second place. *)
Ltac no_wait :=
  let i := fresh "i" in
  let H := fresh in
  intros i; split; intros ? H;
  do 7 (destruct i as [|i]; [discriminate H|]);
  discriminate H.

(** One place of the events of an attempt that is followed by a retry. *)
Ltac at_place :=
  let H := fresh in
  intros ? H;
  first [discriminate H | by (split; [|eexists]) | by (split; [eexists|])].

Lemma fetchWindData_summary n : ∀ attempt maxAttempts w,
  maxAttempts - attempt = n →
  ∃ v w' evs r,
    fetchWindData attempt maxAttempts w = (Normal v, w') ∧
    trace w' = trace w ++ evs ∧ net w' = net w ∧
    fetched w' = fetched w + r ∧ 1 ≤ r ≤ S n ∧
    heap_of w `prefix_of` heap_of w' ∧
    List.filter is_fetch evs = replicate r (Fetch url) ∧
    List.filter is_timeout evs = replicate (r - 1) (SetTimeout 2000) ∧
    List.filter is_render evs = [] ∧
    (∃ rest, evs = Console Log (MsgFetching attempt url) :: Fetch url
                   :: rest) ∧
    (∀ i,
       (∀ u, evs !! S (S i) = Some (Fetch u) →
             evs !! i = Some (SetTimeout 2000) ∧
             ∃ n, evs !! S i = Some (Console Log (MsgFetching n url))) ∧
       (∀ ms, evs !! i = Some (SetTimeout ms) →
              (∃ n, evs !! S i = Some (Console Log (MsgFetching n url))) ∧
              evs !! S (S i) = Some (Fetch url))) ∧
    ((v = VNull ∧
      ∃ a, List.filter is_alert evs = [Alert a] ∧
           last evs = Some (Alert a) ∧
           (a = alert_invalid_format ∨
            a = alert_fetch_failed ∧ r = S n)) ∨
     ((∃ p, wind_payload (heap_of w') v p) ∧
      List.filter is_alert evs = [])).
Proof.
  induction n as [|n IH]; intros attempt maxAttempts w Hn;
    rewrite fetchWindData_run; unfold try_catch;
    destruct (attempt_body_summary
                (logged w [Console Log (MsgFetching attempt url)]))
      as (o & h & evs & -> & Hpre & Ho); simpl in *;
    destruct o as [v|e].
  - exists v, {| heap_of := h; net := net w; fetched := S (fetched w);
                 trace := (trace w ++ [Console Log (MsgFetching attempt url)])
                          ++ evs |},
      (Console Log (MsgFetching attempt url) :: evs), 1.
    simpl. rewrite <- !app_assoc.
    do 3 (split; [done|]). split; [lia|]. split; [lia|]. split; [done|].
    destruct Ho as [[-> [data ->]]|[Hp ->]]; simpl.
    + do 3 (split; [done|]). split; [by eexists|].
      split; [no_wait|]. left. split; [done|].
      exists alert_invalid_format. auto.
    + do 3 (split; [done|]). split; [by eexists|].
      split; [no_wait|]. by right.
  - destruct (lt_dec attempt maxAttempts); [lia|].
    unfold_ops. simpl. eexists VNull, _, _, 1.
    rewrite <- !app_assoc. simpl.
    split; [reflexivity|]. simpl.
    do 2 (split; [reflexivity|]). split; [lia|]. split; [lia|].
    split; [done|].
    destruct Ho as [->|[data ->]]; simpl;
      do 3 (split; [done|]); (split; [by eexists|]);
      (split; [no_wait|]); left; (split; [done|]);
      exists alert_fetch_failed; auto.
  - exists v, {| heap_of := h; net := net w; fetched := S (fetched w);
                 trace := (trace w ++ [Console Log (MsgFetching attempt url)])
                          ++ evs |},
      (Console Log (MsgFetching attempt url) :: evs), 1.
    simpl. rewrite <- !app_assoc.
    do 3 (split; [done|]). split; [lia|]. split; [lia|]. split; [done|].
    destruct Ho as [[-> [data ->]]|[Hp ->]]; simpl.
    + do 3 (split; [done|]). split; [by eexists|].
      split; [no_wait|]. left. split; [done|].
      exists alert_invalid_format. auto.
    + do 3 (split; [done|]). split; [by eexists|].
      split; [no_wait|]. by right.
  - destruct (lt_dec attempt maxAttempts); [|lia].
    unfold_ops. simpl.
    match goal with |- context [fetchWindData _ _ ?w2] =>
      destruct (IH (attempt + 1) maxAttempts w2)
        as (v & w' & evs' & r & -> & Ht & Hnet & Hf & Hr & Hh & Hfe & Hti &
            Hre & [rest' Hshape] & Hord & Hv); [lia|]
    end.
    simpl in *.
    exists v, w',
      (Console Log (MsgFetching attempt url)
       :: evs ++
          Console Error (MsgAttemptFailed attempt e)
          :: Console Log (MsgRetrying (attempt + 1) maxAttempts)
             :: SetTimeout 2000 :: evs'), (S r).
    split; [done|]. rewrite Ht, <- !app_assoc. simpl.
    split; [reflexivity|]. split; [done|]. split; [lia|]. split; [lia|].
    split; [by etrans|].
    assert (replicate (r - 0) (SetTimeout 2000) =
            SetTimeout 2000 :: replicate (r - 1) (SetTimeout 2000)) as ->
      by (destruct r as [|r']; [lia|]; simpl; by rewrite Nat.sub_0_r).
    destruct Ho as [->|[data ->]]; simpl; rewrite Hfe, Hti, Hre;
      do 3 (split; [done|]); (split; [by eexists|]);
      (split;
       [intros i; rewrite Hshape;
        (split;
         [do 4 (destruct i as [|i]; [at_place|]);
          do 2 (try (destruct i as [|i]; [at_place|]));
          rewrite <- Hshape;
          first [exact (proj1 (Hord i))|exact (proj1 (Hord (S i)))]
         |do 4 (destruct i as [|i]; [at_place|]);
          do 2 (try (destruct i as [|i]; [at_place|]));
          rewrite <- Hshape;
          first [exact (proj2 (Hord i))|exact (proj2 (Hord (S i)))]])|]);
      (destruct Hv as [(-> & a & Ha & Hl & Hwhich)|[Hp Ha]]; [left|by right]);
      (split; [done|]); exists a; (split; [done|]);
      (split; [by rewrite !last_cons, Hl|]);
      (destruct Hwhich as [?|[? ?]]; [by left|right]); (split; [done|lia]).
Qed.

(** ** Attempts that fail before a body is parsed *)

Lemma retried_fetches k : ∀ attempt maxAttempts err,
  List.filter is_fetch (retried k attempt maxAttempts err) =
  replicate k (Fetch url).
Proof.
  induction k as [|k IH]; intros attempt maxAttempts err; simpl; [done|].
  by rewrite IH.
Qed.

Lemma retried_timeouts k : ∀ attempt maxAttempts err,
  List.filter is_timeout (retried k attempt maxAttempts err) =
  replicate k (SetTimeout 2000).
Proof.
  induction k as [|k IH]; intros attempt maxAttempts err; simpl; [done|].
  by rewrite IH.
Qed.

Lemma retried_alerts k : ∀ attempt maxAttempts err,
  List.filter is_alert (retried k attempt maxAttempts err) = [].
Proof.
  induction k as [|k IH]; intros attempt maxAttempts err; simpl; [done|].
  by rewrite IH.
Qed.

(** [k] refused answers, while retries are left, bring the run to the
    attempt [attempt + k]. *)
Lemma fetchWindData_retried k : ∀ attempt maxAttempts w err,
  k ≤ maxAttempts - attempt →
  (∀ i, i < k → refused (net w (fetched w + i)) = Some (err i)) →
  fetchWindData attempt maxAttempts w =
  fetchWindData (attempt + k) maxAttempts
    {| heap_of := heap_of w; net := net w; fetched := fetched w + k;
       trace := trace w ++ retried k attempt maxAttempts err |}.
Proof.
  induction k as [|k IH]; intros attempt maxAttempts w err Hk Href.
  - destruct w as [h nt f tr]. simpl.
    by rewrite !Nat.add_0_r, app_nil_r.
  - rewrite fetchWindData_run. unfold try_catch.
    rewrite (attempt_body_refused _ (err 0)); last first.
    { specialize (Href 0). rewrite Nat.add_0_r in Href. apply Href. lia. }
    destruct (lt_dec attempt maxAttempts); [|lia].
    unfold_ops. simpl. rewrite (IH _ _ _ (λ i, err (S i))); simpl.
    + replace (attempt + 1 + k) with (attempt + S k) by lia.
      replace (S (fetched w + k)) with (fetched w + S k) by lia.
      by rewrite <- !app_assoc.
    + lia.
    + intros i Hi. replace (S (fetched w + i)) with (fetched w + S i) by lia.
      apply Href. lia.
Qed.

Lemma fetchWindData_refused n : ∀ attempt maxAttempts w err,
  maxAttempts - attempt = n →
  (∀ i, i ≤ n → refused (net w (fetched w + i)) = Some (err i)) →
  fetchWindData attempt maxAttempts w =
    (Normal VNull,
     {| heap_of := heap_of w; net := net w; fetched := fetched w + S n;
        trace := trace w ++ exhausted n attempt maxAttempts err |}).
Proof.
  induction n as [|n IH]; intros attempt maxAttempts w err Hn Href;
    rewrite fetchWindData_run; unfold try_catch;
    (rewrite (attempt_body_refused _ (err 0)); last first);
    try (specialize (Href 0); rewrite Nat.add_0_r in Href; apply Href; lia).
  - destruct (lt_dec attempt maxAttempts); [lia|].
    unfold_ops. simpl. rewrite Nat.add_1_r.
    by rewrite <- !app_assoc.
  - destruct (lt_dec attempt maxAttempts); [|lia].
    unfold_ops. simpl. rewrite (IH _ _ _ (λ i, err (S i))); simpl.
    + f_equal. f_equal; [lia|]. by rewrite <- !app_assoc.
    + lia.
    + intros i Hi. replace (S (fetched w + i)) with (fetched w + S i) by lia.
      apply Href. lia.
Qed.

(** ** The presenter after any run of [fetchWindData] *)

Section PresenterRuns.

Variable StringToNumber : string → number.
Variable ArrayToString : heap → loc → outcome string.

Lemma loadWindData_cases w :
  ∃ v w1,
    fetchWindData 1 3 w = (Normal v, w1) ∧
    ((v = VNull ∧
      loadWindData StringToNumber ArrayToString w = (Normal tt, w1)) ∨
     (∃ p, wind_payload (heap_of w1) v p ∧
           loadWindData StringToNumber ArrayToString w =
             (presenter_outcome StringToNumber ArrayToString (heap_of w1) p,
              {| heap_of := presenter_store StringToNumber ArrayToString
                              (heap_of w1) p;
                 net := net w1; fetched := fetched w1;
                 trace := trace w1 ++
                          presenter_events StringToNumber ArrayToString
                            (heap_of w1) p |}))).
Proof.
  destruct (fetchWindData_returns 2 1 3 w) as (v & w1 & evs & Hf & _ & Hv);
    [done|].
  exists v, w1. split; [done|]. destruct Hv as [[-> _]|[p Hp]].
  - left. split; [done|]. unfold loadWindData.
    by rewrite (bind_normal _ _ _ _ _ Hf).
  - right. exists p. split; [done|]. by apply (loadWindData_presents _ _ _ v).
Qed.

Lemma presenter_store_prefix h p :
  h `prefix_of` presenter_store StringToNumber ArrayToString h p.
Proof.
  unfold presenter_store. destruct (expected _ _ _ _); [|done].
  destruct (_ || _); [done|]. by apply prefix_app_r.
Qed.

Lemma presenter_events_requests h p :
  List.filter is_fetch (presenter_events StringToNumber ArrayToString h p)
    = [] ∧
  List.filter is_timeout (presenter_events StringToNumber ArrayToString h p)
    = [].
Proof.
  unfold presenter_events. destruct (expected _ _ _ _); [|done].
  destruct (mismatch _ _); [done|]. by destruct (degenerate _).
Qed.

Lemma presenter_events_end h p :
  let evs := presenter_events StringToNumber ArrayToString h p in
  match presenter_outcome StringToNumber ArrayToString h p with
  | Throw _ => List.filter is_alert evs = [] ∧ List.filter is_render evs = []
  | Normal _ =>
      (∃ a, List.filter is_alert evs = [Alert a] ∧
            List.filter is_render evs = [] ∧ last evs = Some (Alert a)) ∨
      (∃ windData,
         List.filter is_render evs = [VelocityLayer windData] ∧
         List.filter is_alert evs = [] ∧
         ∃ evs0, evs = evs0 ++ render_events windData)
  end.
Proof.
  unfold presenter_events, presenter_outcome.
  destruct (expected _ _ _ _) as [e|err]; [|done].
  destruct (mismatch _ _); [|destruct (degenerate _)]; simpl.
  - left. by eexists.
  - left. by eexists.
  - right. eexists. split; [done|]. split; [done|].
    by exists (inspected p).
Qed.

End PresenterRuns.

(** * Properties of the code beyond the specification *)

(** X1: when the first [k] answers fail before a body is parsed (no
    response, a status outside 200 to 299, or a body that is not JSON), [k]
    retries are left, and the next answer is a success whose JSON body has
    the accepted shape, [fetchWindData] returns the parsed body after
    [k + 1] requests: it has waited 2000 ms after each failed attempt, the
    attempts are numbered from [attempt] on, the store holds the parsed body
    and nothing else that is new, and no alert has fired. *)
Theorem fetchWindData_recovers k attempt maxAttempts w err j :
  k ≤ maxAttempts - attempt →
  (∀ i, i < k → refused (net w (fetched w + i)) = Some (err i)) →
  serves_at w k j → json_wind_payload j →
  ∃ evs,
    fetchWindData attempt maxAttempts w =
      (Normal (reify j (heap_of w)).1,
       {| heap_of := (reify j (heap_of w)).2; net := net w;
          fetched := fetched w + S k; trace := trace w ++ evs |}) ∧
    evs = retried k attempt maxAttempts err ++
          arrival (attempt + k) (reify j (heap_of w)).1 ∧
    List.filter is_fetch evs = replicate (S k) (Fetch url) ∧
    List.filter is_timeout evs = replicate k (SetTimeout 2000) ∧
    List.filter is_alert evs = [].
Proof.
  intros Hk Href (st & Hnet & Hst) Hj. eexists. split; [|split; [done|]].
  - rewrite (fetchWindData_retried k _ _ _ err Hk Href).
    destruct (reify_wind_payload j (heap_of w) Hj) as [p Hp].
    erewrite (fetchWindData_payload _ _ _ j _ _ p);
      [| |by apply surjective_pairing|done].
    + unfold logged, answered. simpl. rewrite <- app_assoc.
      by replace (S (fetched w + k)) with (fetched w + S k) by lia.
    + by exists st.
  - rewrite !List.filter_app, retried_fetches, retried_timeouts,
      retried_alerts. simpl. rewrite app_nil_r.
    by rewrite <- replicate_S_end.
Qed.

Lemma fetchWindData_recovers_witness :
  ∃ evs,
    fetchWindData 1 3 (serving_then Rejected (success example_body)) =
      (Normal (VRef 6),
       {| heap_of := example_store;
          net := net (serving_then Rejected (success example_body));
          fetched := 2; trace := evs |}) ∧
    evs = retried 1 1 3 (λ _, NetworkError) ++ arrival 2 (VRef 6) ∧
    List.filter is_fetch evs = [Fetch url; Fetch url] ∧
    List.filter is_timeout evs = [SetTimeout 2000] ∧
    List.filter is_alert evs = [].
Proof.
  apply (fetchWindData_recovers 1 1 3
           (serving_then Rejected (success example_body))
           (λ _, NetworkError) example_body).
  - simpl. lia.
  - intros i Hi. assert (i = 0) as -> by lia. reflexivity.
  - exists 200%Z. split; [reflexivity|lia].
  - exact example_json_wind_payload.
Defined.

(** X2: when every answer that the run can reach fails before a body is
    parsed, [fetchWindData] started at any [attempt] makes one request more
    than [maxAttempts - attempt], so exactly one when no retry is left
    ([attempt ≥ maxAttempts], as in [fetchWindData(1, 0)]), waits 2000 ms
    between two requests, logs the error of each attempt, returns [null]
    with the store as it was, and alerts once, with the error of the last
    attempt logged before it. A success whose body is not JSON is such a
    failure, like a transport failure or a status outside 200 to 299. *)
Theorem fetchWindData_gives_up attempt maxAttempts w err :
  (∀ i, i ≤ maxAttempts - attempt →
        refused (net w (fetched w + i)) = Some (err i)) →
  ∃ evs,
    fetchWindData attempt maxAttempts w =
      (Normal VNull,
       {| heap_of := heap_of w; net := net w;
          fetched := fetched w + S (maxAttempts - attempt);
          trace := trace w ++ evs |}) ∧
    evs = exhausted (maxAttempts - attempt) attempt maxAttempts err ∧
    List.filter is_timeout evs =
      replicate (maxAttempts - attempt) (SetTimeout 2000) ∧
    List.filter is_alert evs = [Alert alert_fetch_failed] ∧
    last evs = Some (Alert alert_fetch_failed).
Proof.
  intros Href. eexists. split; [|split; [done|]].
  - by apply fetchWindData_refused.
  - by rewrite exhausted_timeouts, exhausted_alerts, exhausted_last.
Qed.

Lemma fetchWindData_gives_up_witness :
  ∃ evs,
    fetchWindData 1 3 (serving unparsable) =
      (Normal VNull,
       {| heap_of := []; net := λ _, unparsable; fetched := 3;
          trace := evs |}) ∧
    evs = exhausted 2 1 3 (λ _, SyntaxError) ∧
    List.filter is_timeout evs = [SetTimeout 2000; SetTimeout 2000] ∧
    List.filter is_alert evs = [Alert alert_fetch_failed] ∧
    last evs = Some (Alert alert_fetch_failed).
Proof.
  apply (fetchWindData_gives_up 1 3 (serving unparsable) (λ _, SyntaxError)).
  intros i _. reflexivity.
Defined.

(** X3: the format check of [fetchWindData] changes nothing; it finds
    nothing wrong exactly for an array of two objects that each have a
    truthy [header] and a [data] that is an array; it throws exactly for an
    array of two elements whose first is [null] or [undefined], or whose
    first has a truthy [header] and whose second is [null] or [undefined];
    and what it throws is a [TypeError]. *)
Theorem invalid_format_exact data w :
  (invalid_format data w).2 = w ∧
  ((invalid_format data w).1 = Normal false ↔
   ∃ p, wind_payload (heap_of w) data p) ∧
  ((invalid_format data w).1 = Throw TypeError ↔
   null_element (heap_of w) data) ∧
  (∀ e, (invalid_format data w).1 = Throw e → e = TypeError).
Proof.
  split; [apply invalid_format_reads|]. split; [|split].
  - split.
    + intros H. destruct (invalid_format data w) as [o w'] eqn:Hrun.
      simpl in H. subst o. by apply invalid_format_wind_payload in Hrun.
    + intros [p Hp]. by rewrite (invalid_format_payload _ _ p).
  - split.
    + intros H. by apply invalid_format_throws_exact in H as [? _].
    + intros H. by rewrite invalid_format_null_element.
  - intros e H. by apply invalid_format_throws_exact in H as [_ ?].
Qed.

(** X4: for a success with a JSON body, the [try] block of [fetchWindData]
    throws, so that the attempt counts as failed, exactly when the body is
    an array [[null, x]], or an array [[a, null]] in which [a] is an object
    with a truthy [header]; the error is then a [TypeError]. *)
Theorem attempt_body_throws_iff w j :
  serves w j →
  ((∃ e w', attempt_body w = (Throw e, w')) ↔ json_null_element j) ∧
  (∀ e w', attempt_body w = (Throw e, w') → e = TypeError).
Proof.
  intros Hs. pose proof (attempt_body_served w j Hs) as Hrun.
  simpl in Hrun. revert Hrun.
  set (w1 := logged _ _).
  pose proof (reify_null_element j (heap_of w)) as Hshape.
  change (reify j (heap_of w)).2 with (heap_of w1) in Hshape.
  pose proof (invalid_format_throws_exact (reify j (heap_of w)).1 w1)
    as Hthrows.
  pose proof (invalid_format_null_element (reify j (heap_of w)).1 w1)
    as Hnull.
  destruct (invalid_format (reify j (heap_of w)).1 w1) as [[[|]|e0] w2];
    simpl; intros ->.
  - split; [|by intros e w' [=]]. split; [by intros (e & w' & [=])|].
    intros Hj. apply Hshape, Hnull in Hj. discriminate Hj.
  - split; [|by intros e w' [=]]. split; [by intros (e & w' & [=])|].
    intros Hj. apply Hshape, Hnull in Hj. discriminate Hj.
  - destruct (Hthrows e0 eq_refl) as [Hne ->]. split.
    + split; [intros _; by apply Hshape|]. intros _. by eexists _, _.
    + by intros e w' [= <- _].
Qed.

Lemma attempt_body_throws_iff_witness :
  ((∃ e w', attempt_body (serving (success halved_body)) = (Throw e, w')) ↔
   json_null_element halved_body) ∧
  (∀ e w', attempt_body (serving (success halved_body)) = (Throw e, w') →
           e = TypeError).
Proof.
  apply (attempt_body_throws_iff (serving (success halved_body)) halved_body).
  exists 200%Z. split; [reflexivity|lia].
Defined.

(** X5: when the response is a success whose JSON body is neither of the
    accepted shape nor of a shape at which the format check throws,
    [fetchWindData] logs the format error, alerts the user once and returns
    [null] after this one request, without waiting and whatever [attempt]
    and [maxAttempts] are; the parsed body stays in the store. *)
Theorem fetchWindData_format_branch w attempt maxAttempts j :
  serves w j → ¬ json_wind_payload j → ¬ json_null_element j →
  ∃ evs,
    fetchWindData attempt maxAttempts w =
      (Normal VNull,
       {| heap_of := (reify j (heap_of w)).2; net := net w;
          fetched := S (fetched w); trace := trace w ++ evs |}) ∧
    evs = rejection attempt (reify j (heap_of w)).1 ∧
    List.filter is_fetch evs = [Fetch url] ∧
    List.filter is_timeout evs = [] ∧
    List.filter is_alert evs = [Alert alert_invalid_format].
Proof.
  intros Hs Hshape Hnull. eexists. split; [|split; [done|done]].
  rewrite fetchWindData_run. unfold try_catch.
  assert (serves (logged w [Console Log (MsgFetching attempt url)]) j) as Hs'
    by done.
  rewrite (attempt_body_served _ j Hs'). simpl.
  set (w1 := logged _ _).
  pose proof (reify_null_element j (heap_of w)) as Hne.
  pose proof (invalid_format_throws_exact (reify j (heap_of w)).1 w1)
    as Hthrows.
  destruct (invalid_format (reify j (heap_of w)).1 w1)
    as [[[|]|e0] w2] eqn:Hinv; simpl.
  - unfold w1, logged, answered, rejection. simpl.
    by rewrite <- !app_assoc.
  - exfalso. apply invalid_format_wind_payload in Hinv as [p Hp].
    by apply Hshape, (wind_payload_json j (heap_of w) p).
  - exfalso. destruct (Hthrows e0 eq_refl) as [Hn _].
    by apply Hnull, Hne.
Qed.

Lemma headless_not_payload : ¬ json_wind_payload headless_body.
Proof.
  intros (cu & cv & [= <- <-] & _ & (ms & hd & xs & [=] & _)).
Defined.

Lemma headless_not_null_element : ¬ json_null_element headless_body.
Proof.
  intros [(b & [=])|(a & [= <-] & (ms & hd & [= <-] & [=] & _))].
Defined.

Lemma fetchWindData_format_branch_witness :
  ∃ evs,
    fetchWindData 1 3 (serving (success headless_body)) =
      (Normal VNull,
       {| heap_of := [OArr []; OObj {["data" := VRef 0]};
                      OArr [VRef 1; VNull]];
          net := λ _, success headless_body; fetched := 1; trace := evs |}) ∧
    evs = rejection 1 (VRef 2) ∧
    List.filter is_fetch evs = [Fetch url] ∧
    List.filter is_timeout evs = [] ∧
    List.filter is_alert evs = [Alert alert_invalid_format].
Proof.
  apply (fetchWindData_format_branch (serving (success headless_body)) 1 3
           headless_body).
  - exists 200%Z. split; [reflexivity|lia].
  - exact headless_not_payload.
  - exact headless_not_null_element.
Defined.

(** X6: whatever the network answers, a run of [fetchWindData] makes at
    least one request and at most one more than [maxAttempts - attempt]
    (so at most [maxAttempts] when started at attempt 1 with
    [maxAttempts ≥ 1], and exactly one when no retry is left); every
    request goes to the one URL; the run begins with the line that
    announces the attempt and its request; every later request comes
    after a wait of 2000 ms with only the line that announces the attempt
    between the two, and every wait is followed in this way by a request,
    so that the run waits once before each request after the first and at
    no other time; and the run consumes exactly the answers of its
    requests. *)
Theorem fetchWindData_bounded attempt maxAttempts w :
  ∃ r evs rest,
    trace (fetchWindData attempt maxAttempts w).2 = trace w ++ evs ∧
    net (fetchWindData attempt maxAttempts w).2 = net w ∧
    fetched (fetchWindData attempt maxAttempts w).2 = fetched w + r ∧
    1 ≤ r ≤ S (maxAttempts - attempt) ∧
    List.filter is_fetch evs = replicate r (Fetch url) ∧
    List.filter is_timeout evs = replicate (r - 1) (SetTimeout 2000) ∧
    evs = Console Log (MsgFetching attempt url) :: Fetch url :: rest ∧
    (∀ i u, evs !! S (S i) = Some (Fetch u) →
            evs !! i = Some (SetTimeout 2000) ∧
            ∃ n, evs !! S i = Some (Console Log (MsgFetching n url))) ∧
    (∀ i ms, evs !! i = Some (SetTimeout ms) →
             (∃ n, evs !! S i = Some (Console Log (MsgFetching n url))) ∧
             evs !! S (S i) = Some (Fetch url)).
Proof.
  destruct (fetchWindData_summary (maxAttempts - attempt) attempt
              maxAttempts w eq_refl)
    as (v & w' & evs & r & -> & Ht & Hnet & Hf & Hr & _ & Hfe & Hti & _ &
        [rest Hshape] & Hord & _).
  exists r, evs, rest. do 7 (split; [done|]).
  split; [intros i; apply (Hord i)|intros i; apply (Hord i)].
Qed.

(** X7: whatever the network answers, [fetchWindData] returns [null]
    exactly when it has alerted the user: a run that returns [null] has
    alerted exactly once, as its last action, with the format alert or
    with the alert of the exhausted retries, and the latter only after one
    request more than [maxAttempts - attempt]; a run that returns anything
    else returns a payload of the accepted shape and has not alerted. *)
Theorem fetchWindData_alerts_iff_null attempt maxAttempts w :
  ∃ v w' evs,
    fetchWindData attempt maxAttempts w = (Normal v, w') ∧
    trace w' = trace w ++ evs ∧
    ((v = VNull ∧
      ∃ a, List.filter is_alert evs = [Alert a] ∧
           last evs = Some (Alert a) ∧
           (a = alert_invalid_format ∨
            a = alert_fetch_failed ∧
            fetched w' = fetched w + S (maxAttempts - attempt))) ∨
     (v ≠ VNull ∧ (∃ p, wind_payload (heap_of w') v p) ∧
      List.filter is_alert evs = [])).
Proof.
  destruct (fetchWindData_summary (maxAttempts - attempt) attempt
              maxAttempts w eq_refl)
    as (v & w' & evs & r & Hrun & Ht & _ & Hf & _ & _ & _ & _ & _ & _ & _ &
        Hv).
  exists v, w', evs. split; [done|]. split; [done|].
  destruct Hv as [(-> & a & Ha & Hl & Hwhich)|[[p Hp] Ha]]; [left|right].
  - split; [done|]. exists a. split; [done|]. split; [done|].
    destruct Hwhich as [?|[? ->]]; auto.
  - split; [|by eauto]. intros ->.
    by destruct Hp as (l & cu & cv & [=] & _).
Qed.

Section Presenter_further.

Variable StringToNumber : string → number.
Variable ArrayToString : heap → loc → outcome string.

(** X8: neither function changes or removes an object of the store:
    every object that was there before a run of [fetchWindData] is there
    unchanged after it, and every object that was there when
    [fetchWindData] returned, so every object of the payload, is there
    unchanged when [loadWindData] ends, however it ends. *)
Theorem loadWindData_keeps_store w :
  (∀ attempt maxAttempts l o,
     heap_of w !! l = Some o →
     heap_of (fetchWindData attempt maxAttempts w).2 !! l = Some o) ∧
  (∀ l o,
     heap_of (fetchWindData 1 3 w).2 !! l = Some o →
     heap_of (loadWindData StringToNumber ArrayToString w).2 !! l = Some o).
Proof.
  split.
  - intros attempt maxAttempts l o Hl.
    destruct (fetchWindData_summary (maxAttempts - attempt) attempt
                maxAttempts w eq_refl)
      as (v & w' & evs & r & -> & _ & _ & _ & _ & Hpre & _).
    by eapply prefix_lookup_Some.
  - intros l o.
    destruct (loadWindData_cases StringToNumber ArrayToString w)
      as (v & w1 & -> & [[_ ->]|(p & _ & ->)]); simpl; [done|].
    intros Hl. eapply prefix_lookup_Some; [exact Hl|].
    apply presenter_store_prefix.
Qed.

(** X9: whatever the network answers, a run of [loadWindData] that
    returns has either alerted the user exactly once, as its last action,
    and created no velocity layer, or created exactly one velocity layer,
    added it to the map and logged the success as its last actions, and
    alerted nobody; a run that throws has done neither. *)
Theorem loadWindData_alert_or_layer w :
  ∃ o w' evs,
    loadWindData StringToNumber ArrayToString w = (o, w') ∧
    trace w' = trace w ++ evs ∧
    match o with
    | Normal _ =>
        (∃ a, List.filter is_alert evs = [Alert a] ∧
              List.filter is_render evs = [] ∧ last evs = Some (Alert a)) ∨
        (∃ windData,
           List.filter is_render evs = [VelocityLayer windData] ∧
           List.filter is_alert evs = [] ∧
           ∃ evs0, evs = evs0 ++ render_events windData)
    | Throw _ => List.filter is_alert evs = [] ∧ List.filter is_render evs = []
    end.
Proof.
  destruct (fetchWindData_summary 2 1 3 w eq_refl)
    as (v & w1 & evs & r & Hrun & Ht & _ & _ & _ & _ & _ & _ & Hre & _ & _ &
        Hv).
  destruct (loadWindData_cases StringToNumber ArrayToString w)
    as (v' & w1' & Hrun' & Hload).
  rewrite Hrun in Hrun'. injection Hrun' as <- <-.
  destruct Hload as [[-> ->]|(p & Hp & ->)].
  - exists (Normal tt), w1, evs. split; [done|]. split; [done|].
    destruct Hv as [(_ & a & Ha & Hl & _)|[[p (l & ? & ? & [=] & _)] _]].
    left. by exists a.
  - destruct Hv as [(-> & _)|[_ Ha]];
      [by destruct Hp as (l & cu & cv & [=] & _)|].
    eexists _, _, _. split; [reflexivity|]. simpl.
    rewrite Ht, <- app_assoc. split; [reflexivity|].
    pose proof (presenter_events_end StringToNumber ArrayToString
                  (heap_of w1) p) as Hend.
    cbv zeta in Hend. revert Hend.
    generalize (presenter_events StringToNumber ArrayToString (heap_of w1) p).
    intros evs1 Hend. rewrite !List.filter_app, Ha, Hre, !app_nil_l.
    destruct (presenter_outcome _ _ _ _) as [u|err]; [|done].
    destruct Hend as [(a & Haa & Har & Hl)|(wd & Hwr & Hwa & evs0 & Hevs)].
    + left. exists a. split; [done|]. split; [done|].
      by rewrite last_app, Hl.
    + right. exists wd. split; [done|]. split; [done|].
      exists (evs ++ evs0). by rewrite Hevs, app_assoc.
Qed.

(** X10: the presenter makes no request of its own: the events of a run
    of [loadWindData] are those of its call of [fetchWindData], with the
    defaults 1 and 3, followed by events among which there is no request
    and no wait; the run consumes the answers that this call consumed and
    no other, between one and three of them. *)
Theorem loadWindData_requests w :
  ∃ r evs1 evs2,
    trace (fetchWindData 1 3 w).2 = trace w ++ evs1 ∧
    trace (loadWindData StringToNumber ArrayToString w).2 =
      trace w ++ evs1 ++ evs2 ∧
    List.filter is_fetch evs2 = [] ∧ List.filter is_timeout evs2 = [] ∧
    net (loadWindData StringToNumber ArrayToString w).2 = net w ∧
    fetched (loadWindData StringToNumber ArrayToString w).2 =
      fetched (fetchWindData 1 3 w).2 ∧
    fetched (fetchWindData 1 3 w).2 = fetched w + r ∧ 1 ≤ r ≤ 3.
Proof.
  destruct (fetchWindData_summary 2 1 3 w eq_refl)
    as (v & w1 & evs & r & Hrun & Ht & Hnet & Hf & Hr & _).
  destruct (loadWindData_cases StringToNumber ArrayToString w)
    as (v' & w1' & Hrun' & Hload).
  rewrite Hrun in Hrun'. injection Hrun' as <- <-. rewrite Hrun.
  destruct Hload as [[-> ->]|(p & Hp & ->)]; simpl.
  - exists r, evs, []. by rewrite app_nil_r.
  - exists r, evs, (presenter_events StringToNumber ArrayToString
                      (heap_of w1) p).
    rewrite Ht, <- app_assoc. do 2 (split; [done|]).
    destruct (presenter_events_requests StringToNumber ArrayToString
                (heap_of w1) p) as [Hpf Hpt].
    done.
Qed.

(** X11: when each of the next three answers fails before a body is
    parsed, [loadWindData] returns after the three requests of
    [fetchWindData] and adds nothing of its own: the events are those of
    the exhausted retries, with their one alert, no velocity layer is
    created and the store is as it was. *)
Theorem loadWindData_unreachable w err :
  (∀ i, i ≤ 2 → refused (net w (fetched w + i)) = Some (err i)) →
  ∃ evs,
    loadWindData StringToNumber ArrayToString w =
      (Normal tt,
       {| heap_of := heap_of w; net := net w; fetched := fetched w + 3;
          trace := trace w ++ evs |}) ∧
    evs = exhausted 2 1 3 err ∧
    List.filter is_alert evs = [Alert alert_fetch_failed] ∧
    List.filter is_render evs = [].
Proof.
  intros Href. eexists. split; [|split; [done|done]].
  unfold loadWindData.
  by rewrite (bind_normal _ _ _ _ _
                (fetchWindData_refused 2 1 3 w err eq_refl Href)).
Qed.

(** X12: the presenter does not depend on how many attempts the payload
    took: when the first [k] answers, at most two, fail before a body is
    parsed and the next answer delivers a payload of the accepted shape,
    [loadWindData] logs the [k] failed attempts with their waits, then the
    arrival at attempt [k + 1], and then does to the payload exactly what
    it does to a payload that arrives at once: the same events, the same
    store and the same result. *)
Theorem loadWindData_after_retries k w err j data h1 p :
  k ≤ 2 →
  (∀ i, i < k → refused (net w (fetched w + i)) = Some (err i)) →
  serves_at w k j → reify j (heap_of w) = (data, h1) →
  wind_payload h1 data p →
  loadWindData StringToNumber ArrayToString w =
    (presenter_outcome StringToNumber ArrayToString h1 p,
     {| heap_of := presenter_store StringToNumber ArrayToString h1 p;
        net := net w; fetched := fetched w + S k;
        trace := trace w ++ retried k 1 3 err ++ arrival (1 + k) data ++
                 presenter_events StringToNumber ArrayToString h1 p |}).
Proof.
  intros Hk Href (st & Hnet & Hst) Hj Hp.
  assert (fetchWindData 1 3 w =
            (Normal data,
             {| heap_of := h1; net := net w; fetched := fetched w + S k;
                trace := trace w ++ retried k 1 3 err ++
                         arrival (1 + k) data |})) as Hf.
  { rewrite (fetchWindData_retried k 1 3 w err); [|simpl; lia|done].
    rewrite (fetchWindData_payload _ _ _ j data h1 p);
      [|by exists st|done|done].
    unfold logged, answered. simpl. rewrite <- !app_assoc.
    by replace (S (fetched w + k)) with (fetched w + S k) by lia. }
  rewrite (loadWindData_presents _ _ _ _ _ p Hf Hp). simpl.
  by rewrite <- !app_assoc.
Qed.

(** X13: a payload of the accepted shape in which every sample of both
    data arrays is zero, so also a payload with two empty data arrays, is
    never rendered, whatever its headers declare: [loadWindData] creates no
    velocity layer and leaves the store as parsing left it, whether it
    ends in the length-mismatch branch, in the branch for data without
    wind, or by the exception of [nx * ny]. *)
Theorem loadWindData_calm_never_renders w data h1 p :
  delivered w data h1 p →
  Forall is_zero (uData p) → Forall is_zero (vData p) →
  ∃ o w' evs,
    loadWindData StringToNumber ArrayToString w = (o, w') ∧
    trace w' = trace w ++ evs ∧
    List.filter is_render evs = [] ∧ heap_of w' = h1.
Proof.
  intros Hd Hu Hv. rewrite (loadWindData_delivered _ _ _ _ _ _ Hd).
  eexists _, _, _. split; [reflexivity|]. split; [reflexivity|]. simpl.
  assert (degenerate p = true) as Hdeg by by apply degenerate_true.
  unfold presenter_events, presenter_store. rewrite Hdeg.
  destruct (expected _ _ _ _) as [e|err]; [|done].
  by destruct (mismatch p e).
Qed.

End Presenter_further.

Lemma loadWindData_unreachable_witness :
  ∃ evs,
    loadWindData example_StringToNumber example_ArrayToString
      (serving (Resolved (Response 503 (Some example_body)))) =
      (Normal tt,
       {| heap_of := [];
          net := λ _, Resolved (Response 503 (Some example_body));
          fetched := 3; trace := evs |}) ∧
    evs = exhausted 2 1 3 (λ _, HttpError 503) ∧
    List.filter is_alert evs = [Alert alert_fetch_failed] ∧
    List.filter is_render evs = [].
Proof.
  apply (loadWindData_unreachable example_StringToNumber
           example_ArrayToString
           (serving (Resolved (Response 503 (Some example_body))))
           (λ _, HttpError 503)).
  intros i _. reflexivity.
Defined.

Lemma loadWindData_after_retries_witness :
  loadWindData example_StringToNumber example_ArrayToString
    (serving_then unparsable (success example_body)) =
    (presenter_outcome example_StringToNumber example_ArrayToString
       example_store example_payload,
     {| heap_of := presenter_store example_StringToNumber
                     example_ArrayToString example_store example_payload;
        net := net (serving_then unparsable (success example_body));
        fetched := 2;
        trace := retried 1 1 3 (λ _, SyntaxError) ++ arrival 2 (VRef 6) ++
                 presenter_events example_StringToNumber
                   example_ArrayToString example_store example_payload |}).
Proof.
  apply (loadWindData_after_retries example_StringToNumber
           example_ArrayToString 1
           (serving_then unparsable (success example_body))
           (λ _, SyntaxError) example_body (VRef 6) example_store
           example_payload).
  - lia.
  - intros i Hi. assert (i = 0) as -> by lia. reflexivity.
  - exists 200%Z. split; [reflexivity|lia].
  - reflexivity.
  - exact example_wind_payload.
Defined.

Lemma loadWindData_calm_never_renders_witness :
  ∃ o w' evs,
    loadWindData example_StringToNumber example_ArrayToString
      (serving (success calm_body)) = (o, w') ∧
    trace w' = evs ∧
    List.filter is_render evs = [] ∧ heap_of w' = calm_store.
Proof.
  apply (loadWindData_calm_never_renders example_StringToNumber
           example_ArrayToString (serving (success calm_body)) (VRef 6)
           calm_store calm_payload).
  - exact calm_delivered.
  - exact (proj1 calm_all_zero).
  - exact (proj2 calm_all_zero).
Defined.
